(** * Dashboard data and filter engine

    A shallow embedding of the client-side core of the factory monitoring
    dashboard:

    - [frontend/src/types/index.ts]: the records exchanged with the backend
      and the [DashboardState] snapshot;
    - [frontend/src/context/DashboardContext.tsx]: [dashboardReducer], the
      action creators [loadDashboardData], [searchMachines], [clearFilters],
      [setSelectedDate];
    - [SearchFilters]: the 300ms debounce effect;
    - [HourlyTrendChart] and [CustomerTrendChart]: the [chartData]
      aggregations.

    JavaScript strings are modelled by [string], integers received from the
    backend by [Z], arrays by [list], [Map] objects by [gmap]. An [async]
    function is a [Task]: a tree of dispatches and awaited gateway calls,
    whose continuations are resumed when the awaited promise settles. *)

From Stdlib Require Import ZArith String Ascii List Sorted.
From Stdlib Require QArith Qround.
From stdpp Require Import base list strings gmap pretty.

Local Open Scope string_scope.
Local Open Scope list_scope.
Local Open Scope Z_scope.

(** ** JavaScript built-ins used by the sources *)

(** A JavaScript string is modelled by the [string] of its UTF-8 bytes: on
    well-formed strings [===] is equality of the byte strings and
    [s.includes(q)] their substring test.

    [String.prototype.toLowerCase] follows the case mapping of the Unicode
    tables of the runtime, which are not part of the repository: it is the
    method of the class [JsString]. What is used of it is its restriction to
    strings of ASCII characters, where it maps the letters [A]..[Z] to
    [a]..[z] and leaves every other character as it is. *)
Definition lower_ascii (c : ascii) : ascii :=
  let n := nat_of_ascii c in
  if (65 <=? n)%nat && (n <=? 90)%nat then ascii_of_nat (n + 32) else c.

Fixpoint lowerASCII (s : string) : string :=
  match s with
  | EmptyString => EmptyString
  | String c s' => String (lower_ascii c) (lowerASCII s')
  end.

Fixpoint isASCII (s : string) : bool :=
  match s with
  | EmptyString => true
  | String c s' => (nat_of_ascii c <? 128)%nat && isASCII s'
  end.

Class JsString : Type := {
  (** [s.toLowerCase()] *)
  toLowerCase : string -> string;
  toLowerCase_ASCII : forall s, isASCII s = true -> toLowerCase s = lowerASCII s;
}.

(** [s.includes(q)]: [q] occurs in [s] as a contiguous substring. *)
Fixpoint includes (s q : string) : bool :=
  String.prefix q s ||
  match s with
  | EmptyString => false
  | String _ s' => includes s' q
  end.

(** Truthiness of a string value: only the empty string is falsy. *)
Definition truthy (v : string) : bool :=
  match v with EmptyString => false | _ => true end.

(** [Array.prototype.sort(compare)]: the sort is stable, and with a
    consistent comparator its result is the stable ordering by that
    comparator; [compare a b] is the sign-carrying number the callback
    returns. Written as insertion from the right, which keeps equal elements
    in their original order. *)
Section ArraySort.
Context {A : Type} (compare : A -> A -> Z).

Fixpoint sort_insert (x : A) (l : list A) : list A :=
  match l with
  | [] => [x]
  | y :: l' => if compare x y <=? 0 then x :: y :: l' else y :: sort_insert x l'
  end.

Fixpoint Array_sort (l : list A) : list A :=
  match l with
  | [] => []
  | x :: l' => sort_insert x (Array_sort l')
  end.

End ArraySort.

(** [[...new Set(xs)]]: the distinct elements in order of first occurrence. *)
Definition Set_add (acc : list string) (x : string) : list string :=
  if bool_decide (x ∈ acc) then acc else acc ++ [x].

Definition Set_spread (xs : list string) : list string :=
  foldl Set_add [] xs.

(** A value caught by [catch]: an [Error] instance with its message, or any
    other thrown value. *)
Inductive Thrown : Type :=
  | ErrorObject (message : string)
  | NonError.

(** The way a promise settles. *)
Inductive Settled (A : Type) : Type :=
  | Fulfilled (value : A)
  | Rejected (reason : Thrown).
Arguments Fulfilled {A} value.
Arguments Rejected {A} reason.

(** ** [types/index.ts] *)

Inductive Status : Type := Normal | Satisfactory | Alert | Unacceptable.

Definition Status_string (s : Status) : string :=
  match s with
  | Normal => "Normal"
  | Satisfactory => "Satisfactory"
  | Alert => "Alert"
  | Unacceptable => "Unacceptable"
  end.

Record Machine : Type := {
  _id : string;
  machineName : string;
  customer : string;
  area : string;
  subarea : string;
  machineType : option string;
  status : Status;
  ingestedDate : option string;
}.

(** The [status_counts] object of [KPIStats] and [StatusTrend]; its key
    order is [Normal], [Satisfactory], [Alert], [Unacceptable]. *)
Record StatusCounts : Type := {
  cNormal : Z;
  cSatisfactory : Z;
  cAlert : Z;
  cUnacceptable : Z;
}.

Record KPIStats : Type := {
  total_readings : Z;
  kpi_status_counts : StatusCounts;
}.

Record HourlyTrend : Type := {
  hour : Z;
  count : Z;
}.

Record StatusTrend : Type := {
  date : string;
  status_counts : StatusCounts;
}.

(** [DashboardState['searchFilters']] and its [Partial<...>], where [None]
    is an absent property. *)
Module SearchFilters.
Record t : Type := {
  customer : string;
  area : string;
  subarea : string;
  machineName : string;
  status : string;
}.
End SearchFilters.

Module PartialFilters.
Record t : Type := {
  customer : option string;
  area : option string;
  subarea : option string;
  machineName : option string;
  status : option string;
}.
End PartialFilters.

(** ** External libraries

    [date-fns] and the JavaScript [Date] object are not part of the
    repository; the calls the sources make are the methods of this class. *)
Class DateFns : Type := {
  Date : Type;
  (** the value of [new Date()] when [initialState] is created *)
  Date_now : Date;
  (** [format(startOfMonth(d), 'yyyy-MM-dd')] *)
  format_startOfMonth : Date -> string;
  (** [format(endOfMonth(d), 'yyyy-MM-dd')] *)
  format_endOfMonth : Date -> string;
  (** [format(parseISO(s), 'MMM dd')] *)
  format_MMM_dd : string -> string;
  (** [new Date(label).getTime()] *)
  Date_getTime : string -> Z;
}.

Section Dashboard.
Context `{DateFns} `{JsString}.

Record DashboardState : Type := {
  selectedDate : Date;
  machines : list Machine;
  filteredMachines : list Machine;
  kpiStats : option KPIStats;
  statusTrends : list StatusTrend;
  hourlyTrends : list HourlyTrend;
  loading : bool;
  error : option string;
  searchFilters : SearchFilters.t;
}.

(** ** [context/DashboardContext.tsx] *)

Inductive DashboardAction : Type :=
  | SET_LOADING (payload : bool)
  | SET_ERROR (payload : option string)
  | SET_SELECTED_DATE (payload : Date)
  | SET_MACHINES (payload : list Machine)
  | SET_FILTERED_MACHINES (payload : list Machine)
  | SET_KPI_STATS (payload : option KPIStats)
  | SET_STATUS_TRENDS (payload : list StatusTrend)
  | SET_HOURLY_TRENDS (payload : list HourlyTrend)
  | SET_SEARCH_FILTERS (payload : PartialFilters.t)
  | CLEAR_FILTERS
  | RESET_DASHBOARD.

Definition emptyFilters : SearchFilters.t :=
  {| SearchFilters.customer := "";
     SearchFilters.area := "";
     SearchFilters.subarea := "";
     SearchFilters.machineName := "";
     SearchFilters.status := "" |}.

Definition initialState : DashboardState :=
  {| selectedDate := Date_now;
     machines := [];
     filteredMachines := [];
     kpiStats := None;
     statusTrends := [];
     hourlyTrends := [];
     loading := false;
     error := None;
     searchFilters := emptyFilters |}.

(** [{ ...state.searchFilters, ...action.payload }] *)
Definition mergeFilters (old : SearchFilters.t) (p : PartialFilters.t) : SearchFilters.t :=
  {| SearchFilters.customer := default (SearchFilters.customer old) (PartialFilters.customer p);
     SearchFilters.area := default (SearchFilters.area old) (PartialFilters.area p);
     SearchFilters.subarea := default (SearchFilters.subarea old) (PartialFilters.subarea p);
     SearchFilters.machineName := default (SearchFilters.machineName old) (PartialFilters.machineName p);
     SearchFilters.status := default (SearchFilters.status old) (PartialFilters.status p) |}.

Definition dashboardReducer (state : DashboardState) (action : DashboardAction)
  : DashboardState :=
  match action with
  | SET_LOADING payload =>
      {| selectedDate := selectedDate state; machines := machines state;
         filteredMachines := filteredMachines state; kpiStats := kpiStats state;
         statusTrends := statusTrends state; hourlyTrends := hourlyTrends state;
         loading := payload;
         error := error state; searchFilters := searchFilters state |}
  | SET_ERROR payload =>
      {| selectedDate := selectedDate state; machines := machines state;
         filteredMachines := filteredMachines state; kpiStats := kpiStats state;
         statusTrends := statusTrends state; hourlyTrends := hourlyTrends state;
         loading := false;
         error := payload;
         searchFilters := searchFilters state |}
  | SET_SELECTED_DATE payload =>
      {| selectedDate := payload;
         machines := machines state;
         filteredMachines := filteredMachines state; kpiStats := kpiStats state;
         statusTrends := statusTrends state; hourlyTrends := hourlyTrends state;
         loading := loading state; error := error state;
         searchFilters := searchFilters state |}
  | SET_MACHINES payload =>
      {| selectedDate := selectedDate state;
         machines := payload;
         filteredMachines := payload;
         kpiStats := kpiStats state;
         statusTrends := statusTrends state; hourlyTrends := hourlyTrends state;
         loading := loading state; error := error state;
         searchFilters := searchFilters state |}
  | SET_FILTERED_MACHINES payload =>
      {| selectedDate := selectedDate state; machines := machines state;
         filteredMachines := payload;
         kpiStats := kpiStats state;
         statusTrends := statusTrends state; hourlyTrends := hourlyTrends state;
         loading := loading state; error := error state;
         searchFilters := searchFilters state |}
  | SET_KPI_STATS payload =>
      {| selectedDate := selectedDate state; machines := machines state;
         filteredMachines := filteredMachines state;
         kpiStats := payload;
         statusTrends := statusTrends state; hourlyTrends := hourlyTrends state;
         loading := loading state; error := error state;
         searchFilters := searchFilters state |}
  | SET_STATUS_TRENDS payload =>
      {| selectedDate := selectedDate state; machines := machines state;
         filteredMachines := filteredMachines state; kpiStats := kpiStats state;
         statusTrends := payload;
         hourlyTrends := hourlyTrends state;
         loading := loading state; error := error state;
         searchFilters := searchFilters state |}
  | SET_HOURLY_TRENDS payload =>
      {| selectedDate := selectedDate state; machines := machines state;
         filteredMachines := filteredMachines state; kpiStats := kpiStats state;
         statusTrends := statusTrends state;
         hourlyTrends := payload;
         loading := loading state; error := error state;
         searchFilters := searchFilters state |}
  | SET_SEARCH_FILTERS payload =>
      {| selectedDate := selectedDate state; machines := machines state;
         filteredMachines := filteredMachines state; kpiStats := kpiStats state;
         statusTrends := statusTrends state; hourlyTrends := hourlyTrends state;
         loading := loading state; error := error state;
         searchFilters := mergeFilters (searchFilters state) payload |}
  | CLEAR_FILTERS =>
      {| selectedDate := selectedDate state; machines := machines state;
         filteredMachines := machines state;
         kpiStats := kpiStats state;
         statusTrends := statusTrends state; hourlyTrends := hourlyTrends state;
         loading := loading state; error := error state;
         searchFilters := searchFilters initialState |}
  | RESET_DASHBOARD => initialState
  end.


(** *** Asynchronous action creators

    The four gateway calls of [loadDashboardData] are started together and
    awaited through [Promise.all]; [searchMachines] awaits one call. A
    [Task] is what remains to be run of an [async] function: [Dispatch]
    calls [dispatch], [AwaitAll] and [AwaitSearch] suspend the function
    until the promise settles and resume it with the outcome ([try]/[catch]
    around an [await] is the case analysis of the continuation). *)

Definition LoadPayload : Type :=
  list Machine * KPIStats * list StatusTrend * list HourlyTrend.

Inductive Task : Type :=
  | Ret
  | Dispatch (action : DashboardAction) (k : Task)
  (** [await Promise.all([getAllMachines(s, e), getKPIs(s, e),
      getStatusTrends(s, e), getHourlyTrends(s, e)])] *)
  | AwaitAll (startDate endDate : string) (k : Settled LoadPayload -> Task)
  (** [await machineAPI.searchMachines(params)] *)
  | AwaitSearch (params : list (string * string)) (k : Settled (list Machine) -> Task).

(** The outcomes of the four calls, each with the time at which it settles. *)
Record GatewayOutcomes : Type := {
  getAllMachines : nat * Settled (list Machine);
  getKPIs : nat * Settled KPIStats;
  getStatusTrends : nat * Settled (list StatusTrend);
  getHourlyTrends : nat * Settled (list HourlyTrend);
}.

Definition rejection {A : Type} (o : nat * Settled A) : list (nat * Thrown) :=
  match o with
  | (t, Rejected e) => [(t, e)]
  | (_, Fulfilled _) => []
  end.

(** The rejection that is observed first: the earliest one, and among
    simultaneous ones the one of the lowest index. *)
Fixpoint earliest (first : nat * Thrown) (rest : list (nat * Thrown)) : Thrown :=
  match rest with
  | [] => snd first
  | r :: rest' => if (fst r <? fst first)%nat then earliest r rest' else earliest first rest'
  end.

(** [Promise.all]: fulfilled with all four values when every call is
    fulfilled, rejected with the first rejection observed otherwise. *)
Definition Promise_all (o : GatewayOutcomes) : Settled LoadPayload :=
  match
    rejection (getAllMachines o) ++ rejection (getKPIs o) ++
    rejection (getStatusTrends o) ++ rejection (getHourlyTrends o)
  with
  | r :: rest => Rejected (earliest r rest)
  | [] =>
      match snd (getAllMachines o), snd (getKPIs o),
            snd (getStatusTrends o), snd (getHourlyTrends o) with
      | Fulfilled m, Fulfilled k, Fulfilled st, Fulfilled ht => Fulfilled (m, k, st, ht)
      | _, _, _, _ => Rejected NonError
      end
  end.

(** [error instanceof Error ? error.message : fallback] *)
Definition errorMessage (e : Thrown) (fallback : string) : string :=
  match e with
  | ErrorObject message => message
  | NonError => fallback
  end.

Definition loadDashboardData (date : Date) : Task :=
  Dispatch (SET_LOADING true) (
  Dispatch (SET_ERROR None) (
  let startDate := format_startOfMonth date in
  let endDate := format_endOfMonth date in
  AwaitAll startDate endDate (fun settled =>
    match settled with
    | Fulfilled (machines, kpiStats, statusTrends, hourlyTrends) =>
        Dispatch (SET_MACHINES machines) (
        Dispatch (SET_KPI_STATS (Some kpiStats)) (
        Dispatch (SET_STATUS_TRENDS statusTrends) (
        Dispatch (SET_HOURLY_TRENDS hourlyTrends) (
        Dispatch (SET_LOADING false) Ret))))
    | Rejected error =>
        Dispatch (SET_ERROR (Some (errorMessage error "Failed to load dashboard data"))) Ret
    end))).

(** [!v] and the value [v] of an optional string property. *)
Definition not_ (v : option string) : bool :=
  match v with
  | Some v => negb (truthy v)
  | None => true
  end.

Definition str (v : option string) : string := default "" v.

(** The [reduce] over [Object.entries(filters)]: the truthy entries, with
    the key [machineName] renamed to [machine_name]. *)
Definition searchParams (filters : PartialFilters.t) : list (string * string) :=
  let entry (key : string) (value : option string) :=
    if not_ value then []
    else [(if String.eqb key "machineName" then "machine_name" else key, str value)] in
  entry "customer" (PartialFilters.customer filters) ++
  entry "area" (PartialFilters.area filters) ++
  entry "subarea" (PartialFilters.subarea filters) ++
  entry "machineName" (PartialFilters.machineName filters) ++
  entry "status" (PartialFilters.status filters).

(** The callback of [state.machines.filter] in the fallback path. *)
Definition matchesFilters (filters : PartialFilters.t) (machine : Machine) : bool :=
  let matchesSearch :=
    not_ (PartialFilters.machineName filters) ||
    includes (toLowerCase (machineName machine))
             (toLowerCase (str (PartialFilters.machineName filters))) ||
    includes (toLowerCase (_id machine))
             (toLowerCase (str (PartialFilters.machineName filters))) in
  let matchesCustomer :=
    not_ (PartialFilters.customer filters) ||
    String.eqb (customer machine) (str (PartialFilters.customer filters)) in
  let matchesArea :=
    not_ (PartialFilters.area filters) ||
    String.eqb (area machine) (str (PartialFilters.area filters)) in
  let matchesSubarea :=
    not_ (PartialFilters.subarea filters) ||
    String.eqb (subarea machine) (str (PartialFilters.subarea filters)) in
  let matchesStatus :=
    not_ (PartialFilters.status filters) ||
    String.eqb (Status_string (status machine)) (str (PartialFilters.status filters)) in
  matchesSearch && matchesCustomer && matchesArea && matchesSubarea && matchesStatus.

Definition clientFilteredMachines (state : DashboardState) (filters : PartialFilters.t)
  : list Machine :=
  List.filter (matchesFilters filters) (machines state).

(** [state] is the snapshot the closure of [searchMachines] was created
    with: the one of the render that produced the [actions] object. The
    outer [catch] of the source handles an exception thrown outside the
    inner [try]; the dispatches and the filter callback throw none, so it
    has no case here. *)
Definition searchMachines (state : DashboardState) (filters : PartialFilters.t) : Task :=
  Dispatch (SET_LOADING true) (
  Dispatch (SET_SEARCH_FILTERS filters) (
  AwaitSearch
    (searchParams filters ++
     [("start_date", format_startOfMonth (selectedDate state));
      ("end_date", format_endOfMonth (selectedDate state))])
    (fun settled =>
       match settled with
       | Fulfilled filteredMachines =>
           Dispatch (SET_FILTERED_MACHINES filteredMachines) (
           Dispatch (SET_LOADING false) Ret)
       | Rejected backendError =>
           Dispatch (SET_FILTERED_MACHINES (clientFilteredMachines state filters)) (
           Dispatch (SET_LOADING false) Ret)
       end))).

Definition clearFilters : Task :=
  Dispatch CLEAR_FILTERS Ret.

Definition setSelectedDate (date : Date) : Task :=
  Dispatch (SET_SELECTED_DATE date) (loadDashboardData date).

(** *** Running tasks

    [run_sync] runs a task up to its next [await] (or its end) and returns
    the snapshot reached and what is left of the task. *)
Fixpoint run_sync (t : Task) (s : DashboardState) : DashboardState * Task :=
  match t with
  | Dispatch action k => run_sync k (dashboardReducer s action)
  | _ => (s, t)
  end.

(** A whole cycle, run alone: every [Promise.all] settles as [all], every
    search call as [search]. *)
Fixpoint run_task (all : Settled LoadPayload) (search : Settled (list Machine))
    (t : Task) (s : DashboardState) : DashboardState :=
  match t with
  | Ret => s
  | Dispatch action k => run_task all search k (dashboardReducer s action)
  | AwaitAll _ _ k => run_task all search (k all) s
  | AwaitSearch _ k => run_task all search (k search) s
  end.

(** The gateway requests a task issues in such a cycle. *)
Inductive GatewayCall : Type :=
  | CallAll (startDate endDate : string)
  | CallSearch (params : list (string * string)).

Fixpoint gateway_calls (all : Settled LoadPayload) (search : Settled (list Machine))
    (t : Task) : list GatewayCall :=
  match t with
  | Ret => []
  | Dispatch _ k => gateway_calls all search k
  | AwaitAll s e k => CallAll s e :: gateway_calls all search (k all)
  | AwaitSearch p k => CallSearch p :: gateway_calls all search (k search)
  end.

(** The actions a task dispatches in such a cycle, in order. *)
Fixpoint actions_of (all : Settled LoadPayload) (search : Settled (list Machine))
    (t : Task) : list DashboardAction :=
  match t with
  | Ret => []
  | Dispatch action k => action :: actions_of all search k
  | AwaitAll _ _ k => actions_of all search (k all)
  | AwaitSearch _ k => actions_of all search (k search)
  end.

(** The actions a task dispatches before it suspends or ends. *)
Fixpoint dispatched (t : Task) : list DashboardAction :=
  match t with
  | Dispatch action k => action :: dispatched k
  | _ => []
  end.

(** *** Interleaved cycles

    The provider holds the snapshot; the tasks suspended at an [await] are
    in flight. Calling an action creator runs it up to its first [await];
    when a promise settles, the task waiting for it is resumed. Tasks settle
    in any order. *)
Record System : Type := {
  store : DashboardState;
  inflight : list Task;
}.

Inductive Event : Type :=
  | Call_loadDashboardData (date : Date)
  | Call_searchMachines (filters : PartialFilters.t)
  | Call_clearFilters
  | Call_setSelectedDate (date : Date)
  | Settle_all (i : nat) (outcome : Settled LoadPayload)
  | Settle_search (i : nat) (outcome : Settled (list Machine)).

Definition resume (t : Task) (s : DashboardState) (others : list Task) : System :=
  let '(s', t') := run_sync t s in
  {| store := s';
     inflight := match t' with Ret => others | _ => others ++ [t'] end |}.

Definition step (sys : System) (e : Event) : option System :=
  match e with
  | Call_loadDashboardData date =>
      Some (resume (loadDashboardData date) (store sys) (inflight sys))
  | Call_searchMachines filters =>
      Some (resume (searchMachines (store sys) filters) (store sys) (inflight sys))
  | Call_clearFilters =>
      Some (resume clearFilters (store sys) (inflight sys))
  | Call_setSelectedDate date =>
      Some (resume (setSelectedDate date) (store sys) (inflight sys))
  | Settle_all i outcome =>
      match inflight sys !! i with
      | Some (AwaitAll _ _ k) => Some (resume (k outcome) (store sys) (delete i (inflight sys)))
      | _ => None
      end
  | Settle_search i outcome =>
      match inflight sys !! i with
      | Some (AwaitSearch _ k) => Some (resume (k outcome) (store sys) (delete i (inflight sys)))
      | _ => None
      end
  end.

Definition initialSystem : System :=
  {| store := initialState; inflight := [] |}.

Fixpoint steps (sys : System) (es : list Event) : option System :=
  match es with
  | [] => Some sys
  | e :: es' =>
      match step sys e with
      | Some sys' => steps sys' es'
      | None => None
      end
  end.

End Dashboard.

(** ** [SearchFilters]: the debounce effect

    The component keeps [searchTerm] and [localFilters] in [useState]. Its
    effect, with dependencies [[searchTerm, localFilters, actions]], arms a
    300ms timer whose callback closed over the values of that render; the
    cleanup returned by the effect clears the timer. The clock [now] counts
    milliseconds, [timeoutId] is the pending timer with its deadline, and
    [calls] records the calls of [actions.searchMachines] with their time. *)

Inductive FilterField : Type := FCustomer | FArea | FSubarea | FStatus.

Record Component : Type := {
  searchTerm : string;
  localFilters : SearchFilters.t;
  now : nat;
  timeoutId : option (nat * (string * SearchFilters.t));
  calls : list (nat * PartialFilters.t);
}.

(** [{ ...localFilters, machineName: searchTerm }] *)
Definition criteria (term : string) (filters : SearchFilters.t) : PartialFilters.t :=
  {| PartialFilters.customer := Some (SearchFilters.customer filters);
     PartialFilters.area := Some (SearchFilters.area filters);
     PartialFilters.subarea := Some (SearchFilters.subarea filters);
     PartialFilters.machineName := Some term;
     PartialFilters.status := Some (SearchFilters.status filters) |}.

(** [searchTerm || Object.values(localFilters).some(value => value)] *)
Definition anyCriteria (term : string) (filters : SearchFilters.t) : bool :=
  truthy term ||
  existsb truthy
    [SearchFilters.customer filters; SearchFilters.area filters;
     SearchFilters.subarea filters; SearchFilters.machineName filters;
     SearchFilters.status filters].

(** [{ ...prev, [field]: value }] *)
Definition setField (prev : SearchFilters.t) (field : FilterField) (value : string)
  : SearchFilters.t :=
  {| SearchFilters.customer :=
       match field with FCustomer => value | _ => SearchFilters.customer prev end;
     SearchFilters.area :=
       match field with FArea => value | _ => SearchFilters.area prev end;
     SearchFilters.subarea :=
       match field with FSubarea => value | _ => SearchFilters.subarea prev end;
     SearchFilters.machineName := SearchFilters.machineName prev;
     SearchFilters.status :=
       match field with FStatus => value | _ => SearchFilters.status prev end |}.

(** A render in which a dependency of the effect changed: the cleanup of
    the previous effect clears its timer and the effect arms a new one. *)
Definition rerun_effect (term : string) (filters : SearchFilters.t) (c : Component)
  : Component :=
  {| searchTerm := term;
     localFilters := filters;
     now := now c;
     timeoutId := Some ((now c + 300)%nat, (term, filters));
     calls := calls c |}.

Inductive Edit : Type :=
  (** [setSearchTerm(value)] *)
  | EditTerm (value : string)
  (** [handleFilterChange(field, value)] *)
  | EditField (field : FilterField) (value : string)
  (** [handleClearFilters()] *)
  | EditClear.

(** An edit changes a dependency of the effect unless it sets the search
    term to the string it already holds; the setters of [localFilters]
    always store a new object. *)
Definition changes (c : Component) (e : Edit) : bool :=
  match e with
  | EditTerm value => negb (String.eqb value (searchTerm c))
  | EditField _ _ => true
  | EditClear => true
  end.

Definition edit (e : Edit) (c : Component) : Component :=
  if changes c e then
    match e with
    | EditTerm value => rerun_effect value (localFilters c) c
    | EditField field value =>
        rerun_effect (searchTerm c) (setField (localFilters c) field value) c
    | EditClear => rerun_effect "" emptyFilters c
    end
  else c.

(** The timer callback. When it calls [actions.searchMachines], the
    dispatches of that call make the provider render again with a new
    [actions] object and with [state.searchFilters] merged with the
    criteria, which the component copies into [localFilters]: the effect
    runs again. *)
Definition fire (closure : string * SearchFilters.t) (c : Component) : Component :=
  let '(term, filters) := closure in
  if anyCriteria term filters then
    rerun_effect (searchTerm c)
      (mergeFilters (localFilters c) (criteria term filters))
      {| searchTerm := searchTerm c; localFilters := localFilters c; now := now c;
         timeoutId := None;
         calls := calls c ++ [(now c, criteria term filters)] |}
  else
    {| searchTerm := searchTerm c; localFilters := localFilters c; now := now c;
       timeoutId := None; calls := calls c |}.

(** One millisecond passes; a timer whose deadline is reached fires. *)
Definition tick (c : Component) : Component :=
  let c' := {| searchTerm := searchTerm c; localFilters := localFilters c;
               now := S (now c); timeoutId := timeoutId c; calls := calls c |} in
  match timeoutId c with
  | Some (deadline, closure) =>
      if (deadline <=? now c')%nat then fire closure c' else c'
  | None => c'
  end.

Fixpoint elapse (ms : nat) (c : Component) : Component :=
  match ms with
  | O => c
  | S ms' => elapse ms' (tick c)
  end.

(** Edits, each arriving [gap] milliseconds after the previous one, with
    no other render of the provider in between. *)
Fixpoint edits (es : list (nat * Edit)) (c : Component) : Component :=
  match es with
  | [] => c
  | (gap, e) :: es' => edits es' (edit e (elapse gap c))
  end.

(** The component when it is mounted at time [t]: the first effect has
    armed a timer for the empty criteria. *)
Definition mounted (t : nat) : Component :=
  rerun_effect "" emptyFilters
    {| searchTerm := ""; localFilters := emptyFilters; now := t;
       timeoutId := None; calls := [] |}.

(** ** Charts

    Of a chart's data, the labels and the label and values of each dataset
    are kept; the colours and line styles are constants of the source. *)
Record Dataset : Type := {
  label : string;
  data : list Z;
}.

Record ChartData : Type := {
  labels : list string;
  datasets : list Dataset;
}.

(** *** [HourlyTrendChart] *)

Inductive HourlyViewMode : Type := ViewMachines | ViewComponents.

(** [hour < 10 ? `0${hour}:00` : `${hour}:00`] *)
Definition timeString (hour : Z) : string :=
  if hour <? 10 then "0" +:+ pretty hour +:+ ":00" else pretty hour +:+ ":00".

Definition HourlyTrendChart_chartData (hourlyTrends : list HourlyTrend)
    (viewMode : HourlyViewMode) : ChartData :=
  match hourlyTrends with
  | [] => {| labels := []; datasets := [] |}
  | _ =>
      let sortedTrends := Array_sort (fun a b => hour a - hour b) hourlyTrends in
      let labels := map (fun trend => timeString (hour trend)) sortedTrends in
      let data := map (fun trend => count trend) sortedTrends in
      let dataset :=
        {| label := match viewMode with
                    | ViewMachines => "Machine Readings"
                    | ViewComponents => "Component Readings"
                    end;
           data := data |} in
      {| labels := labels; datasets := [dataset] |}
  end.

(** *** [CustomerTrendChart]

    The share of a customer is computed in JavaScript numbers (IEEE 754
    doubles). The division, the product and [Math.round] are the methods
    of this class; [Math.round] returns an integer, and the sums of such
    integers are exact. *)
Class JsNumber : Type := {
  Number : Type;
  Number_of_Z : Z -> Number;
  Number_div : Number -> Number -> Number;
  Number_mul : Number -> Number -> Number;
  Math_round : Number -> Z;
}.

Section CustomerTrendChart.
Context `{DateFns} `{JsNumber}.

(** [Math.round((count / customers.length) * (index + 1))] *)
Definition roundedShare (customers : list string) (index : nat) (count : Z) : Z :=
  Math_round
    (Number_mul
       (Number_div (Number_of_Z count) (Number_of_Z (Z.of_nat (length customers))))
       (Number_of_Z (Z.of_nat (index + 1)))).

Definition zeroCounts : StatusCounts :=
  {| cNormal := 0; cSatisfactory := 0; cAlert := 0; cUnacceptable := 0 |}.

(** The [forEach] over [Object.entries(trend.status_counts)]:
    [customerTrend[status] += Math.round(...)] for each status. *)
Definition addShares (customers : list string) (index : nat)
    (customerTrend counts : StatusCounts) : StatusCounts :=
  {| cNormal := cNormal customerTrend + roundedShare customers index (cNormal counts);
     cSatisfactory :=
       cSatisfactory customerTrend + roundedShare customers index (cSatisfactory counts);
     cAlert := cAlert customerTrend + roundedShare customers index (cAlert counts);
     cUnacceptable :=
       cUnacceptable customerTrend + roundedShare customers index (cUnacceptable counts) |}.

(** The body of [customers.forEach((customer, index) => ...)] for one
    trend. [customerData.get(customer)] is defined for every customer, as
    the map was initialised with all of them. *)
Definition addTrendFor (customers : list string) (trend : StatusTrend)
    (customerData : gmap string (gmap string StatusCounts))
    (entry : nat * string) : gmap string (gmap string StatusCounts) :=
  let '(index, customer) := entry in
  let date := format_MMM_dd (date trend) in
  let byDate := default ∅ (customerData !! customer) in
  let byDate :=
    match byDate !! date with
    | Some _ => byDate
    | None => <[date := zeroCounts]> byDate
    end in
  let customerTrend := default zeroCounts (byDate !! date) in
  <[customer :=
      <[date := addShares customers index customerTrend (status_counts trend)]> byDate]>
    customerData.

Definition addTrend (customers : list string)
    (customerData : gmap string (gmap string StatusCounts)) (trend : StatusTrend)
  : gmap string (gmap string StatusCounts) :=
  foldl (addTrendFor customers trend) customerData (imap pair customers).

(** [Object.values(trend).reduce((sum, count) => sum + count, 0)] *)
Definition totalCounts (trend : StatusCounts) : Z :=
  0 + cNormal trend + cSatisfactory trend + cAlert trend + cUnacceptable trend.

Definition CustomerTrendChart_chartData (statusTrends : list StatusTrend)
    (machines : list Machine) : ChartData :=
  match statusTrends with
  | [] => {| labels := []; datasets := [] |}
  | _ =>
      let customers := Set_spread (map customer machines) in
      let customerData : gmap string (gmap string StatusCounts) :=
        foldl (fun customerData customer => <[customer := ∅]> customerData) ∅ customers in
      let customerData := foldl (addTrend customers) customerData statusTrends in
      let allDates :=
        Array_sort (fun a b => Date_getTime a - Date_getTime b)
          (Set_spread (map (fun trend => format_MMM_dd (date trend)) statusTrends)) in
      let datasets :=
        imap (fun index customer =>
                let customerTrends := default ∅ (customerData !! customer) in
                {| label := customer;
                   data := map (fun date =>
                                  match customerTrends !! date with
                                  | None => 0
                                  | Some trend => totalCounts trend
                                  end) allDates |})
             customers in
      {| labels := allDates; datasets := datasets |}
  end.

End CustomerTrendChart.

(** ** [KPICards]

    [statusCounts] is the object built by the [reduce] over
    [filteredMachines]; the card of a status shows
    [statusCounts[status] || 0]. *)
Definition statusCounts (filteredMachines : list Machine) : gmap string Z :=
  foldl (fun acc machine =>
           <[Status_string (status machine) :=
               default 0 (acc !! Status_string (status machine)) + 1]> acc)
        ∅ filteredMachines.

Definition KPICards_count (filteredMachines : list Machine) (status : Status) : Z :=
  default 0 (statusCounts filteredMachines !! Status_string status).

Definition totalMachines (filteredMachines : list Machine) : Z :=
  Z.of_nat (length filteredMachines).

(** ** [StatusTrendChart]

    A [Map] whose keys are read back in insertion order is a list of
    entries: [Map_set] replaces the value of a key that is present, where
    it stands, and adds a new key at the end. *)
Fixpoint Map_get {V : Type} (m : list (string * V)) (key : string) : option V :=
  match m with
  | [] => None
  | (k, v) :: m' => if String.eqb k key then Some v else Map_get m' key
  end.

Definition Map_has {V : Type} (m : list (string * V)) (key : string) : bool :=
  match Map_get m key with
  | Some _ => true
  | None => false
  end.

Fixpoint Map_set {V : Type} (m : list (string * V)) (key : string) (value : V)
  : list (string * V) :=
  match m with
  | [] => [(key, value)]
  | (k, v) :: m' =>
      if String.eqb k key then (k, value) :: m' else (k, v) :: Map_set m' key value
  end.

Inductive TrendViewMode : Type := ViewMonthly | ViewWeekly.

(** The elements of [data]: the trend objects themselves in the monthly
    view, the per-week count objects in the weekly view. *)
Inductive TrendItem : Type :=
  | TrendObject (trend : StatusTrend)
  | WeekObject (counts : StatusCounts).

Definition countOf (counts : StatusCounts) (status : Status) : Z :=
  match status with
  | Normal => cNormal counts
  | Satisfactory => cSatisfactory counts
  | Alert => cAlert counts
  | Unacceptable => cUnacceptable counts
  end.

(** [item[status]]: a [StatusTrend] has the keys [date] and
    [status_counts] and none named after a status. *)
Definition item_get (item : TrendItem) (status : Status) : option Z :=
  match item with
  | TrendObject _ => None
  | WeekObject counts => Some (countOf counts status)
  end.

(** [weekData[status] += count] for each entry of [trend.status_counts]. *)
Definition addCounts (weekData counts : StatusCounts) : StatusCounts :=
  {| cNormal := cNormal weekData + cNormal counts;
     cSatisfactory := cSatisfactory weekData + cSatisfactory counts;
     cAlert := cAlert weekData + cAlert counts;
     cUnacceptable := cUnacceptable weekData + cUnacceptable counts |}.

Section StatusTrendChart.
Context `{DateFns}.

(** The body of [sortedTrends.forEach] in the weekly view. *)
Definition addWeek (weeklyData : list (string * StatusCounts)) (trend : StatusTrend)
  : list (string * StatusCounts) :=
  let weekStart := format_MMM_dd (date trend) in
  let weekKey := "Week of " +:+ weekStart in
  let weeklyData :=
    if Map_has weeklyData weekKey then weeklyData
    else Map_set weeklyData weekKey
           {| cNormal := 0; cSatisfactory := 0; cAlert := 0; cUnacceptable := 0 |} in
  let weekData :=
    default {| cNormal := 0; cSatisfactory := 0; cAlert := 0; cUnacceptable := 0 |}
      (Map_get weeklyData weekKey) in
  Map_set weeklyData weekKey (addCounts weekData (status_counts trend)).

Definition StatusTrendChart_chartData (statusTrends : list StatusTrend)
    (viewMode : TrendViewMode) : ChartData :=
  match statusTrends with
  | [] => {| labels := []; datasets := [] |}
  | _ =>
      let sortedTrends :=
        Array_sort (fun a b => Date_getTime (date a) - Date_getTime (date b))
          statusTrends in
      let '(labels, data) :=
        match viewMode with
        | ViewMonthly =>
            (map (fun trend => format_MMM_dd (date trend)) sortedTrends,
             map TrendObject sortedTrends)
        | ViewWeekly =>
            let weeklyData := foldl addWeek [] sortedTrends in
            (map fst weeklyData, map (fun entry => WeekObject (snd entry)) weeklyData)
        end in
      let statuses := [Normal; Satisfactory; Alert; Unacceptable] in
      let datasets :=
        map (fun status =>
               {| label := Status_string status;
                  data := map (fun item => default 0 (item_get item status)) data |})
            statuses in
      {| labels := labels; datasets := datasets |}
  end.

End StatusTrendChart.

(** ** [services/api.ts]

    [machineAPI.searchMachines] appends to the query the entries of
    [filters] whose value is truthy, in their order. *)
Definition searchMachines_query (filters : list (string * string))
  : list (string * string) :=
  List.filter (fun entry => truthy (snd entry)) filters.

(** ** [MachineDetailsModal]

    The modal keeps its data in [useState] cells. [loadMachineDetails] and
    [loadChartData] are [async]; [loadChartData] is called without [await].
    The readings, the points of a time series and the FFT table hold
    floating-point measurements and are kept abstract. *)
Module Bearing.
Record t : Type := {
  _id : string;
  machineId : string;
  bearingLocation : string;
  bearingType : option string;
  position : option string;
  status : Status;
}.
End Bearing.

Module MachineDetailsModal.
Section Modal.
Context {Reading TimeSeriesPoint FFTData : Type}.

(** The value returned by [generateMockFFTData()]. *)
Variable generateMockFFTData : FFTData.

Record State : Type := {
  bearings : list Bearing.t;
  latestReadings : list Reading;
  timeSeriesData : list TimeSeriesPoint;
  fftData : option FFTData;
  loading : bool;
  selectedBearing : option string;
}.

Inductive SetState : Type :=
  | setBearings (value : list Bearing.t)
  | setLatestReadings (value : list Reading)
  | setTimeSeriesData (value : list TimeSeriesPoint)
  | setFftData (value : FFTData)
  | setLoading (value : bool)
  | setSelectedBearing (value : string).

Definition apply (s : State) (a : SetState) : State :=
  match a with
  | setBearings value =>
      {| bearings := value; latestReadings := latestReadings s;
         timeSeriesData := timeSeriesData s; fftData := fftData s;
         loading := loading s; selectedBearing := selectedBearing s |}
  | setLatestReadings value =>
      {| bearings := bearings s; latestReadings := value;
         timeSeriesData := timeSeriesData s; fftData := fftData s;
         loading := loading s; selectedBearing := selectedBearing s |}
  | setTimeSeriesData value =>
      {| bearings := bearings s; latestReadings := latestReadings s;
         timeSeriesData := value; fftData := fftData s;
         loading := loading s; selectedBearing := selectedBearing s |}
  | setFftData value =>
      {| bearings := bearings s; latestReadings := latestReadings s;
         timeSeriesData := timeSeriesData s; fftData := Some value;
         loading := loading s; selectedBearing := selectedBearing s |}
  | setLoading value =>
      {| bearings := bearings s; latestReadings := latestReadings s;
         timeSeriesData := timeSeriesData s; fftData := fftData s;
         loading := value; selectedBearing := selectedBearing s |}
  | setSelectedBearing value =>
      {| bearings := bearings s; latestReadings := latestReadings s;
         timeSeriesData := timeSeriesData s; fftData := fftData s;
         loading := loading s; selectedBearing := Some value |}
  end.

Inductive Task : Type :=
  | Ret
  | Set_ (a : SetState) (k : Task)
  (** [await Promise.all([getBearings(id), getLatestReadings(id)])] *)
  | AwaitDetails (machineId : string)
      (k : Settled (list Bearing.t * list Reading) -> Task)
  (** [await machineAPI.getTimeSeries(id, bearingId, metric, undefined,
      undefined, limit)] *)
  | AwaitTimeSeries (machineId bearingId metric : string) (limit : Z)
      (k : Settled (list TimeSeriesPoint) -> Task)
  (** a call of an [async] function whose promise is not awaited *)
  | Call (callee : Task) (k : Task).

Definition loadChartData (machine : option Machine) (bearingId : string) : Task :=
  match machine with
  | None => Ret
  | Some machine =>
      AwaitTimeSeries (_id machine) bearingId "acceleration" 100 (fun settled =>
        match settled with
        | Fulfilled timeSeries =>
            Set_ (setTimeSeriesData timeSeries) (
            Set_ (setFftData generateMockFFTData) Ret)
        | Rejected error => Ret
        end)
  end.

(** The [finally] block runs [setLoading(false)] on both paths. *)
Definition loadMachineDetails (machine : option Machine) : Task :=
  match machine with
  | None => Ret
  | Some m =>
      Set_ (setLoading true) (
      AwaitDetails (_id m) (fun settled =>
        match settled with
        | Fulfilled (bearingsData, readingsData) =>
            Set_ (setBearings bearingsData) (
            Set_ (setLatestReadings readingsData) (
            match bearingsData with
            | first :: _ =>
                Set_ (setSelectedBearing (Bearing._id first)) (
                Call (loadChartData machine (Bearing._id first)) (
                Set_ (setLoading false) Ret))
            | [] => Set_ (setLoading false) Ret
            end))
        | Rejected error => Set_ (setLoading false) Ret
        end))
  end.

Definition handleBearingSelect (machine : option Machine) (bearingId : string) : Task :=
  Set_ (setSelectedBearing bearingId) (
  Call (loadChartData machine bearingId) Ret).

(** The effect of the modal: [if (machine && visible) loadMachineDetails()]. *)
Definition onOpen (machine : option Machine) (visible : bool) : Task :=
  match machine with
  | Some _ => if visible then loadMachineDetails machine else Ret
  | None => Ret
  end.

(** A task runs until it is suspended at an [await]; a callee that is not
    awaited runs up to its own first [await] and the caller goes on. The
    result is the state reached and the tasks left waiting. *)
Fixpoint run (t : Task) (s : State) : State * list Task :=
  match t with
  | Ret => (s, [])
  | Set_ a k => run k (apply s a)
  | AwaitDetails _ _ => (s, [t])
  | AwaitTimeSeries _ _ _ _ _ => (s, [t])
  | Call callee k =>
      let '(s1, waiting1) := run callee s in
      let '(s2, waiting2) := run k s1 in
      (s2, waiting1 ++ waiting2)
  end.

(** The awaited promise of a waiting task settles. *)
Definition settleDetails (t : Task) (outcome : Settled (list Bearing.t * list Reading))
    (s : State) : State * list Task :=
  match t with
  | AwaitDetails _ k => run (k outcome) s
  | _ => (s, [t])
  end.

Definition settleTimeSeries (t : Task) (outcome : Settled (list TimeSeriesPoint))
    (s : State) : State * list Task :=
  match t with
  | AwaitTimeSeries _ _ _ _ k => run (k outcome) s
  | _ => (s, [t])
  end.

End Modal.
End MachineDetailsModal.

(** ** Instances used in the examples

    Calendar dates [(year, month, day)] with the formats the sources ask of
    [date-fns], and exact rational arithmetic for the numbers, which is
    the arithmetic of JavaScript numbers where the quotient [count / N] is
    a binary fraction, as it is in the samples. *)

Definition pad2 (n : Z) : string :=
  if n <? 10 then "0" +:+ pretty n else pretty n.

Definition isLeapYear (y : Z) : bool :=
  ((y mod 4 =? 0) && negb (y mod 100 =? 0)) || (y mod 400 =? 0).

Definition daysInMonth (y m : Z) : Z :=
  if m =? 2 then (if isLeapYear y then 29 else 28)
  else if (m =? 4) || (m =? 6) || (m =? 9) || (m =? 11) then 30
  else 31.

Definition monthNames : list (string * string) :=
  [("01", "Jan"); ("02", "Feb"); ("03", "Mar"); ("04", "Apr"); ("05", "May");
   ("06", "Jun"); ("07", "Jul"); ("08", "Aug"); ("09", "Sep"); ("10", "Oct");
   ("11", "Nov"); ("12", "Dec")].

Fixpoint monthIndex (name : string) (names : list (string * string)) (i : Z) : Z :=
  match names with
  | [] => 0
  | (_, n) :: names' => if String.eqb n name then i else monthIndex name names' (i + 1)
  end.

Definition digitValue (c : option ascii) : Z :=
  match c with
  | Some c => Z.of_nat (nat_of_ascii c) - 48
  | None => 0
  end.

(** The four digits of a year. *)
Definition pad4 (y : Z) : string :=
  (if y <? 1000 then "0" else "") +:+ (if y <? 100 then "0" else "") +:+
  (if y <? 10 then "0" else "") +:+ pretty y.

Definition twoDigitValue (s : string) (i : nat) : Z :=
  digitValue (String.get i s) * 10 + digitValue (String.get (i + 1) s).

(** [Date_getTime] orders the strings the sources pass to [new Date]: the
    ISO dates [yyyy-MM-dd] by year, month and day, and the labels [MMM dd],
    which are read as dates of one year that is not a leap year, by month
    and day ([Feb 29] being the first of March). *)
#[export] Instance calendarDates : DateFns := {|
  Date := Z * Z * Z;
  Date_now := (2025, 1, 15);
  format_startOfMonth := fun '(y, m, _) => pad4 y +:+ "-" +:+ pad2 m +:+ "-01";
  format_endOfMonth := fun '(y, m, _) =>
    pad4 y +:+ "-" +:+ pad2 m +:+ "-" +:+ pad2 (daysInMonth y m);
  format_MMM_dd := fun iso =>
    match List.find (fun '(mm, _) => String.eqb mm (substring 5 2 iso)) monthNames with
    | Some (_, name) => name +:+ " " +:+ substring 8 2 iso
    | None => iso
    end;
  Date_getTime := fun label =>
    if String.eqb (substring 4 1 label) "-" then
      (twoDigitValue label 0 * 100 + twoDigitValue label 2) * 10000 +
      twoDigitValue label 5 * 100 + twoDigitValue label 8
    else
      let month := monthIndex (substring 0 3 label) monthNames 1 in
      let day := twoDigitValue label 4 in
      if (month =? 2) && (day =? 29) then 301 else month * 100 + day;
|}.

(** The case mapping restricted to the ASCII letters. *)
#[export] Instance asciiStrings : JsString := {|
  toLowerCase := lowerASCII;
  toLowerCase_ASCII := fun s _ => eq_refl;
|}.

#[export] Instance exactNumbers : JsNumber := {|
  Number := QArith_base.Q;
  Number_of_Z := QArith_base.inject_Z;
  Number_div := QArith_base.Qdiv;
  Number_mul := QArith_base.Qmult;
  Math_round := fun q => Qround.Qfloor (QArith_base.Qplus q (QArith_base.Qmake 1 2));
|}.

Definition sampleMachine (id name cust : string) (st : Status) : Machine :=
  {| _id := id; machineName := name; customer := cust; area := "Line 1";
     subarea := "Cell A"; machineType := None; status := st; ingestedDate := None |}.

Definition noFilters : PartialFilters.t :=
  {| PartialFilters.customer := None; PartialFilters.area := None;
     PartialFilters.subarea := None; PartialFilters.machineName := None;
     PartialFilters.status := None |}.

Definition sampleMachines : list Machine :=
  [sampleMachine "m-001" "PUMP-01" "Acme" Normal;
   sampleMachine "m-002" "Fan 7" "Zeta" Alert;
   sampleMachine "m-003" "pump-02" "Acme" Unacceptable].

Definition sampleKPIs : KPIStats :=
  {| total_readings := 8;
     kpi_status_counts :=
       {| cNormal := 2; cSatisfactory := 0; cAlert := 1; cUnacceptable := 5 |} |}.

Definition sampleStatusTrends : list StatusTrend :=
  [{| date := "2025-01-03";
      status_counts :=
        {| cNormal := 4; cSatisfactory := 1; cAlert := 0; cUnacceptable := 3 |} |};
   {| date := "2025-01-02";
      status_counts :=
        {| cNormal := 2; cSatisfactory := 0; cAlert := 1; cUnacceptable := 5 |} |}].

Definition sampleHourlyTrends : list HourlyTrend :=
  [{| hour := 5; count := 3 |}; {| hour := 2; count := 1 |}].

Definition sampleDate : Date := (2025, 1, 20).

(** A snapshot with loaded data and a narrowed [filteredMachines]. *)
Definition sampleState : DashboardState :=
  {| selectedDate := sampleDate;
     machines := sampleMachines;
     filteredMachines := [sampleMachine "m-002" "Fan 7" "Zeta" Alert];
     kpiStats := Some sampleKPIs;
     statusTrends := sampleStatusTrends;
     hourlyTrends := sampleHourlyTrends;
     loading := false;
     error := None;
     searchFilters :=
       {| SearchFilters.customer := "Zeta"; SearchFilters.area := "";
          SearchFilters.subarea := ""; SearchFilters.machineName := "";
          SearchFilters.status := "" |} |}.

Definition pumpFilter : PartialFilters.t :=
  {| PartialFilters.customer := None; PartialFilters.area := None;
     PartialFilters.subarea := None; PartialFilters.machineName := Some "pump";
     PartialFilters.status := None |}.

(** The KPI call is rejected first, the hourly call later. *)
Definition failingOutcomes : GatewayOutcomes :=
  {| getAllMachines := (40%nat, Fulfilled sampleMachines);
     getKPIs := (25%nat, Rejected (ErrorObject "Network Error"));
     getStatusTrends := (60%nat, Fulfilled sampleStatusTrends);
     getHourlyTrends := (30%nat, Rejected (ErrorObject "timeout of 10000ms exceeded")) |}.

(** A load that succeeds, then a search whose server call fails. *)
Definition sampleEvents : list Event :=
  [Call_loadDashboardData sampleDate;
   Settle_all 0 (Fulfilled (sampleMachines, sampleKPIs, sampleStatusTrends, sampleHourlyTrends));
   Call_searchMachines pumpFilter;
   Settle_search 0 (Rejected (ErrorObject "Network Error"))].

(** A search that a second load overtakes and that the server then
    answers. *)
Definition overtakenEvents : list Event :=
  [Call_loadDashboardData sampleDate;
   Settle_all 0 (Fulfilled (sampleMachines, sampleKPIs, sampleStatusTrends, sampleHourlyTrends));
   Call_searchMachines pumpFilter;
   Call_loadDashboardData sampleDate;
   Settle_all 1 (Fulfilled (sampleMachines, sampleKPIs, sampleStatusTrends, sampleHourlyTrends));
   Settle_search 0 (Fulfilled [sampleMachine "m-001" "PUMP-01" "Acme" Normal])].

(** A search on the initial snapshot that the server answers. *)
Definition strayEvents : list Event :=
  [Call_searchMachines pumpFilter;
   Settle_search 0 (Fulfilled [sampleMachine "m-001" "PUMP-01" "Acme" Normal])].

(** Three edits within 100ms of each other; the second list ends with an
    edit that empties the search term. *)
Definition sampleEdits : list (nat * Edit) :=
  [(80%nat, EditTerm "pu"); (90%nat, EditField FCustomer "Acme")].

Definition emptyingEdits : list (nat * Edit) :=
  [(50%nat, EditTerm "")].

(** All four calls of a load are fulfilled. *)
Definition fulfilledOutcomes : GatewayOutcomes :=
  {| getAllMachines := (40%nat, Fulfilled sampleMachines);
     getKPIs := (25%nat, Fulfilled sampleKPIs);
     getStatusTrends := (60%nat, Fulfilled sampleStatusTrends);
     getHourlyTrends := (30%nat, Fulfilled sampleHourlyTrends) |}.

Definition alertFilter : PartialFilters.t :=
  {| PartialFilters.customer := None; PartialFilters.area := None;
     PartialFilters.subarea := None; PartialFilters.machineName := None;
     PartialFilters.status := Some "alert" |}.

(** The component after the search of [pump] has been called and the
    search box emptied. *)
Definition emptiedTerm : Component :=
  edit (EditTerm "") (elapse 300 (edit (EditTerm "pump") (mounted 0))).

(** ** Vocabulary of the properties *)

Section Vocabulary.
Context `{DateFns} `{JsNumber} `{JsString}.

(** The data fields of a snapshot: what a fetch cycle loads. *)
Definition sameData (s s' : DashboardState) : Prop :=
  machines s' = machines s /\
  filteredMachines s' = filteredMachines s /\
  kpiStats s' = kpiStats s /\
  statusTrends s' = statusTrends s /\
  hourlyTrends s' = hourlyTrends s.

(** Some call of the group is rejected, with reason [e]. *)
Definition rejectedWith (o : GatewayOutcomes) (e : Thrown) : Prop :=
  snd (getAllMachines o) = Rejected e \/
  snd (getKPIs o) = Rejected e \/
  snd (getStatusTrends o) = Rejected e \/
  snd (getHourlyTrends o) = Rejected e.

(** The call of the group that settles at time [t] is rejected with reason
    [e]. *)
Definition rejectedAt (o : GatewayOutcomes) (t : nat) (e : Thrown) : Prop :=
  getAllMachines o = (t, Rejected e) \/
  getKPIs o = (t, Rejected e) \/
  getStatusTrends o = (t, Rejected e) \/
  getHourlyTrends o = (t, Rejected e).

(** The matching rule in the words of the specification: a criteria field
    constrains when it is present and not empty; the free text must occur,
    letter case aside, in the display name or in the identity; the other
    fields must be equal. Letter case is set aside by the case mapping of
    the runtime, applied to both sides. *)
Definition isSubstring (q s : string) : Prop :=
  exists pre post, s = pre +:+ q +:+ post.

Definition constrains (v : option string) (q : string) : Prop :=
  v = Some q /\ q <> "".

Definition specMatches (filters : PartialFilters.t) (m : Machine) : Prop :=
  (forall q, constrains (PartialFilters.machineName filters) q ->
     isSubstring (toLowerCase q) (toLowerCase (machineName m)) \/
     isSubstring (toLowerCase q) (toLowerCase (_id m))) /\
  (forall q, constrains (PartialFilters.customer filters) q -> customer m = q) /\
  (forall q, constrains (PartialFilters.area filters) q -> area m = q) /\
  (forall q, constrains (PartialFilters.subarea filters) q -> subarea m = q) /\
  (forall q, constrains (PartialFilters.status filters) q ->
     Status_string (status m) = q).

(** Letter case aside, on ASCII strings, without any case mapping: two
    characters are the same letter when they are equal or when one is a
    capital [A]..[Z] and the other its small form, 32 code points above;
    [q] occurs in [s] when a substring of [s] has the letters of [q]. *)
Definition isCapital (c : ascii) : Prop :=
  (65 <= nat_of_ascii c)%nat /\ (nat_of_ascii c <= 90)%nat.

Definition sameLetter (a b : ascii) : Prop :=
  a = b \/
  (isCapital a /\ nat_of_ascii b = (nat_of_ascii a + 32)%nat) \/
  (isCapital b /\ nat_of_ascii a = (nat_of_ascii b + 32)%nat).

Fixpoint sameIgnoringCase (s t : string) : Prop :=
  match s, t with
  | EmptyString, EmptyString => True
  | String a s', String b t' => sameLetter a b /\ sameIgnoringCase s' t'
  | _, _ => False
  end.

Definition occursIgnoringCase (q s : string) : Prop :=
  exists pre mid post, s = pre +:+ mid +:+ post /\ sameIgnoringCase mid q.

Definition matchesIgnoringCase (filters : PartialFilters.t) (m : Machine) : Prop :=
  (forall q, constrains (PartialFilters.machineName filters) q ->
     occursIgnoringCase q (machineName m) \/ occursIgnoringCase q (_id m)) /\
  (forall q, constrains (PartialFilters.customer filters) q -> customer m = q) /\
  (forall q, constrains (PartialFilters.area filters) q -> area m = q) /\
  (forall q, constrains (PartialFilters.subarea filters) q -> subarea m = q) /\
  (forall q, constrains (PartialFilters.status filters) q ->
     Status_string (status m) = q).

(** Every record of [xs] has its identity in [ys]. *)
Definition subsetById (xs ys : list Machine) : Prop :=
  forall m, m ∈ xs -> exists m', m' ∈ ys /\ _id m' = _id m.

(** The runs the inclusion of [filteredMachines] in [machines] is stated
    for. A run is followed with one flag for each task in flight: whether
    the [machines] array is still the one of the snapshot the task was
    called with, that is, whether no load has been fulfilled since the call
    ([SET_MACHINES] is dispatched by a fulfilled load only). *)
Definition track (current : list bool) (e : Event) : list bool :=
  match e with
  | Call_loadDashboardData _ => current ++ [true]
  | Call_searchMachines _ => current ++ [true]
  | Call_clearFilters => current
  | Call_setSelectedDate _ => current ++ [true]
  | Settle_all i (Fulfilled _) => (fun _ => false) <$> delete i current
  | Settle_all i (Rejected _) => delete i current
  | Settle_search i _ => delete i current
  end.

(** What is asked of the settling of a search: the server answers with
    records of the current [machines] only (its answer is stored as
    received), and the fallback runs only in a search that no fulfilled
    load has overtaken (the closure of an overtaken search filters the
    array the load has replaced). *)
Definition answered (sys : System) (current : list bool) (e : Event) : Prop :=
  match e with
  | Settle_search i (Fulfilled result) => subsetById result (machines (store sys))
  | Settle_search i (Rejected _) => current !! i = Some true
  | _ => True
  end.

Fixpoint admissible (sys : System) (current : list bool) (es : list Event) : Prop :=
  match es with
  | [] => True
  | e :: es' =>
      answered sys current e /\
      match step sys e with
      | Some sys' => admissible sys' (track current e) es'
      | None => True
      end
  end.

(** The tasks in flight are calls of the action creators, suspended at
    their [await]; a search whose flag is set has captured the current
    [machines]. *)
Definition tracked (s : DashboardState) (t : Task) (isCurrent : bool) : Prop :=
  (exists date s0, t = snd (run_sync (loadDashboardData date) s0)) \/
  (exists captured filters s0,
     t = snd (run_sync (searchMachines captured filters) s0) /\
     (isCurrent = true -> machines captured = machines s)).

Definition consistent (sys : System) (current : list bool) : Prop :=
  subsetById (filteredMachines (store sys)) (machines (store sys)) /\
  Forall2 (tracked (store sys)) (inflight sys) current.

Definition set_now (t : nat) (c : Component) : Component :=
  {| searchTerm := searchTerm c; localFilters := localFilters c; now := t;
     timeoutId := timeoutId c; calls := calls c |}.

(** The pending timer is the one armed by the current render. *)
Definition armed (c : Component) : Prop :=
  timeoutId c = Some ((now c + 300)%nat, (searchTerm c, localFilters c)).

(** The search term or one of the dropdown filters is set. *)
Definition criteriaSet (c : Component) : bool :=
  truthy (searchTerm c) ||
  existsb truthy
    [SearchFilters.customer (localFilters c); SearchFilters.area (localFilters c);
     SearchFilters.subarea (localFilters c); SearchFilters.status (localFilters c)].

(** Each edit arrives less than 300ms after the previous one and changes
    the search term or the local filters. *)
Fixpoint burst (es : list (nat * Edit)) (c : Component) : Prop :=
  match es with
  | [] => True
  | (gap, e) :: es' =>
      (gap < 300)%nat /\
      changes (elapse gap c) e = true /\
      burst es' (edit e (elapse gap c))
  end.

(** The two decimal digits of an hour of the day. *)
Definition twoDigits (h : Z) : string :=
  String (ascii_of_nat (48 + Z.to_nat (h / 10)))
    (String (ascii_of_nat (48 + Z.to_nat (h mod 10))) "").

Definition Zsum (l : list Z) : Z := foldr Z.add 0 l.

Definition dateLabel (trend : StatusTrend) : string := format_MMM_dd (date trend).

(** The sum over the statuses of the source's [roundedShare], for the
    counts of one trend point. *)
Definition trendShare (customers : list string) (index : nat) (trend : StatusTrend) : Z :=
  Zsum (map (roundedShare customers index)
          [cNormal (status_counts trend); cSatisfactory (status_counts trend);
           cAlert (status_counts trend); cUnacceptable (status_counts trend)]).

(** The value of the customer of index [index] for the date label [d]:
    the shares of the trend points of that date. *)
Definition customerValue (customers : list string) (index : nat)
    (trends : list StatusTrend) (d : string) : Z :=
  Zsum (map (trendShare customers index) (filter (fun t => dateLabel t = d) trends)).

(** What the loop does to the per-date map of one customer for one trend. *)
Definition bump (customers : list string) (index : nat) (trend : StatusTrend)
    (byDate : gmap string StatusCounts) : gmap string StatusCounts :=
  <[dateLabel trend :=
      addShares customers index (default zeroCounts (byDate !! dateLabel trend))
        (status_counts trend)]> byDate.

Definition accStep (customers : list string) (index : nat) (d : string)
    (acc : option StatusCounts) (trend : StatusTrend) : option StatusCounts :=
  if decide (dateLabel trend = d)
  then Some (addShares customers index (default zeroCounts acc) (status_counts trend))
  else acc.

Definition accFor (customers : list string) (index : nat) (d : string)
    (trends : list StatusTrend) : option StatusCounts :=
  foldl (accStep customers index d) None trends.

Definition accTotal (acc : option StatusCounts) : Z :=
  match acc with
  | None => 0
  | Some trend => totalCounts trend
  end.

End Vocabulary.

Section FurtherVocabulary.
Context `{DateFns}.

(** The key of the weekly view: [`Week of ${weekStart}`]. *)
Definition weekKey (trend : StatusTrend) : string :=
  "Week of " +:+ dateLabel trend.

End FurtherVocabulary.

(** * Properties *)

(** ** The reducer and the action creators *)

Section DashboardProperties.
Context `{DateFns} `{JsString}.

Lemma earliest_In first rest :
  exists t, (t, earliest first rest) ∈ first :: rest.
Proof.
  revert first. induction rest as [|r rest IH]; intros first; simpl.
  - exists (fst first). destruct first. apply list_elem_of_here.
  - destruct (fst r <? fst first)%nat.
    + destruct (IH r) as [t Ht]. exists t. apply list_elem_of_further, Ht.
    + destruct (IH first) as [t Ht]. exists t.
      apply elem_of_cons in Ht as [->|Ht].
      * apply list_elem_of_here.
      * do 2 apply list_elem_of_further. exact Ht.
Qed.

Lemma rejection_elem {A} (o : nat * Settled A) t e :
  (t, e) ∈ rejection o -> snd o = Rejected e.
Proof.
  destruct o as [t' [v|e']]; simpl; intros Hin.
  - inversion Hin.
  - apply list_elem_of_singleton in Hin. congruence.
Qed.

Lemma rejection_nonempty {A} (o : nat * Settled A) e :
  snd o = Rejected e -> rejection o = [(fst o, e)].
Proof. destruct o as [t [v|e']]; simpl; congruence. Qed.

(** [Promise.all] is rejected as soon as one call is, and its reason is the
    reason of one of the rejected calls. *)
Lemma Promise_all_rejected o e :
  rejectedWith o e ->
  exists e', Promise_all o = Rejected e' /\ rejectedWith o e'.
Proof.
  intros Hrej. unfold Promise_all.
  destruct (rejection (getAllMachines o) ++ rejection (getKPIs o) ++
            rejection (getStatusTrends o) ++ rejection (getHourlyTrends o))
    as [|r rest] eqn:Hall.
  - exfalso.
    apply app_eq_nil in Hall as [H1 Hall].
    apply app_eq_nil in Hall as [H2 Hall].
    apply app_eq_nil in Hall as [H3 H4].
    destruct Hrej as [Hr|[Hr|[Hr|Hr]]];
      apply rejection_nonempty in Hr; congruence.
  - exists (earliest r rest). split; [reflexivity|].
    destruct (earliest_In r rest) as [t Hin].
    rewrite <- Hall in Hin.
    unfold rejectedWith.
    repeat (apply elem_of_app in Hin as [Hin|Hin]);
      apply rejection_elem in Hin; tauto.
Qed.

Lemma earliest_least first rest :
  exists t, (t, earliest first rest) ∈ first :: rest /\
            forall p, p ∈ first :: rest -> (t <= fst p)%nat.
Proof.
  revert first. induction rest as [|r rest IH]; intros first; simpl.
  - exists (fst first). split; [destruct first; apply list_elem_of_here|].
    intros p Hin. apply list_elem_of_singleton in Hin. subst p. lia.
  - destruct (Nat.ltb_spec (fst r) (fst first)) as [Hlt|Hge].
    + destruct (IH r) as (t & Ht & Hleast). exists t.
      split; [apply list_elem_of_further, Ht|].
      intros p Hin. apply elem_of_cons in Hin as [Hin|Hin].
      * subst p. pose proof (Hleast r (list_elem_of_here _ _)). lia.
      * apply Hleast, Hin.
    + destruct (IH first) as (t & Ht & Hleast). exists t. split.
      * apply elem_of_cons in Ht as [Ht|Ht];
          [rewrite Ht; apply list_elem_of_here
          | do 2 apply list_elem_of_further; exact Ht].
      * intros p Hin. apply elem_of_cons in Hin as [Hin|Hin];
          [subst p; apply Hleast, list_elem_of_here|].
        apply elem_of_cons in Hin as [Hin|Hin].
        -- subst p. pose proof (Hleast first (list_elem_of_here _ _)). lia.
        -- apply Hleast, list_elem_of_further, Hin.
Qed.

Lemma rejection_at {A} (o : nat * Settled A) t e :
  (t, e) ∈ rejection o <-> o = (t, Rejected e).
Proof.
  destruct o as [t' [v|e']]; simpl; split; intros Hin.
  - inversion Hin.
  - discriminate.
  - apply list_elem_of_singleton in Hin. congruence.
  - injection Hin as -> ->. apply list_elem_of_here.
Qed.

Lemma rejections_at o t e :
  (t, e) ∈ rejection (getAllMachines o) ++ rejection (getKPIs o) ++
           rejection (getStatusTrends o) ++ rejection (getHourlyTrends o)
  <-> rejectedAt o t e.
Proof.
  unfold rejectedAt. rewrite !elem_of_app, !rejection_at. reflexivity.
Qed.

(** The reason [Promise.all] is rejected with is the reason of a rejected
    call that no other rejected call precedes. *)
Lemma Promise_all_first o e :
  rejectedWith o e ->
  exists t e', Promise_all o = Rejected e' /\ rejectedAt o t e' /\
               forall t'' e'', rejectedAt o t'' e'' -> (t <= t'')%nat.
Proof.
  intros Hrej. unfold Promise_all.
  pose proof (rejections_at o) as Hat.
  destruct (rejection (getAllMachines o) ++ rejection (getKPIs o) ++
            rejection (getStatusTrends o) ++ rejection (getHourlyTrends o))
    as [|r rest] eqn:Hall.
  - exfalso.
    apply app_eq_nil in Hall as [H1 Hall].
    apply app_eq_nil in Hall as [H2 Hall].
    apply app_eq_nil in Hall as [H3 H4].
    destruct Hrej as [Hr|[Hr|[Hr|Hr]]];
      apply rejection_nonempty in Hr; congruence.
  - destruct (earliest_least r rest) as (t & Hin & Hleast).
    exists t, (earliest r rest). split; [reflexivity|].
    split; [apply Hat, Hin|].
    intros t'' e'' Hr. apply (Hleast (t'', e'')), Hat, Hr.
Qed.

(** C10. For every snapshot and every payload, [null] included, the
    [SET_ERROR] transition stores the payload in [error], sets [loading] to
    false and leaves every other field as it was; clearing the error thus
    also clears [loading]. *)
Theorem SET_ERROR_transition (state : DashboardState) (p : option string) :
  let state' := dashboardReducer state (SET_ERROR p) in
  error state' = p /\
  loading state' = false /\
  selectedDate state' = selectedDate state /\
  sameData state state' /\
  searchFilters state' = searchFilters state /\
  loading (dashboardReducer state (SET_ERROR None)) = false.
Proof. simpl. unfold sameData. simpl. tauto. Qed.

(** C1. When one of the four parallel gateway calls of a date-range load
    is rejected, the snapshot the load ends in has the data fields of the
    snapshot it started from and [loading] false, and its [error] is the
    message of a rejection that no other rejection precedes: the text of
    the [Error] the call was rejected with, or the text
    [Failed to load dashboard data] when the reason is not an [Error]. *)
Theorem loadDashboardData_failure (state : DashboardState) (date : Date)
    (o : GatewayOutcomes) (search : Settled (list Machine)) (e : Thrown) :
  rejectedWith o e ->
  let state' := run_task (Promise_all o) search (loadDashboardData date) state in
  sameData state state' /\
  (exists t e',
     rejectedAt o t e' /\
     (forall t'' e'', rejectedAt o t'' e'' -> (t <= t'')%nat) /\
     match e' with
     | ErrorObject message => error state' = Some message
     | NonError => error state' = Some "Failed to load dashboard data"
     end) /\
  error state' <> None /\
  loading state' = false.
Proof.
  intros Hrej.
  destruct (Promise_all_first o e Hrej) as (t & e' & Hall & He' & Hleast).
  simpl. rewrite Hall. simpl. unfold sameData. simpl.
  repeat split; try reflexivity.
  - exists t, e'. split; [exact He'|]. split; [exact Hleast|].
    destruct e'; reflexivity.
  - discriminate.
Qed.

(** C2, as the code has it: while [loadDashboardData] waits for its four
    calls, [loading] is false. The function dispatches [SET_LOADING true]
    and then [SET_ERROR null], whose transition sets [loading] back to
    false before the calls are awaited. *)
Theorem loadDashboardData_not_loading_in_flight (state : DashboardState) (date : Date) :
  let '(waiting, rest) := run_sync (loadDashboardData date) state in
  loading waiting = false /\
  exists k, rest = AwaitAll (format_startOfMonth date) (format_endOfMonth date) k.
Proof. simpl. split; [reflexivity|]. eexists. reflexivity. Qed.

(** The sibling path keeps the flag: while [searchMachines] waits for the
    server, [loading] is true. *)
Lemma searchMachines_loading_in_flight (captured state : DashboardState)
    (filters : PartialFilters.t) :
  loading (fst (run_sync (searchMachines captured filters) state)) = true.
Proof. reflexivity. Qed.

(** Neither cycle leaves [loading] true, however the calls settle. *)
Lemma loading_false_at_end (captured state : DashboardState) (date : Date)
    (filters : PartialFilters.t) all search :
  loading (run_task all search (loadDashboardData date) state) = false /\
  loading (run_task all search (searchMachines captured filters) state) = false.
Proof.
  split; simpl.
  - destruct all as [[[[m k] st] ht]|e]; reflexivity.
  - destruct search; reflexivity.
Qed.

(** The snapshot a cycle ends in is the fold of the reducer over the
    actions it dispatches. *)
Lemma run_task_actions all search t : forall state,
  run_task all search t state = foldl dashboardReducer state (actions_of all search t).
Proof.
  induction t as [|a k IH|sd ed k IH|p k IH]; intros state; simpl; auto.
Qed.

(** Whatever runs in between, no dispatch of a load that fails touches the
    data fields, and no dispatch of a search whose server call fails
    touches [error]. *)
Lemma failed_load_actions (date : Date) (e : Thrown) search a state :
  a ∈ actions_of (Rejected e) search (loadDashboardData date) ->
  sameData state (dashboardReducer state a).
Proof.
  simpl. intros Ha. unfold sameData.
  repeat (apply elem_of_cons in Ha as [->|Ha]; [simpl; tauto|]).
  inversion Ha.
Qed.

Lemma failed_search_actions (captured : DashboardState) filters all (e : Thrown) a state :
  a ∈ actions_of all (Rejected e) (searchMachines captured filters) ->
  error (dashboardReducer state a) = error state.
Proof.
  simpl. intros Ha.
  repeat (apply elem_of_cons in Ha as [->|Ha]; [reflexivity|]).
  inversion Ha.
Qed.

(** C5. [clearFilters] resets the five criteria to the empty string and
    sets [filteredMachines] to [machines], whatever the filters and the
    filtered list were, in one dispatch and without any gateway call. *)
Theorem clearFilters_resets (state : DashboardState)
    (all : Settled LoadPayload) (search : Settled (list Machine)) :
  let state' := run_task all search clearFilters state in
  SearchFilters.customer (searchFilters state') = "" /\
  SearchFilters.area (searchFilters state') = "" /\
  SearchFilters.subarea (searchFilters state') = "" /\
  SearchFilters.machineName (searchFilters state') = "" /\
  SearchFilters.status (searchFilters state') = "" /\
  filteredMachines state' = machines state /\
  machines state' = machines state /\
  gateway_calls all search clearFilters = [] /\
  run_sync clearFilters state = (state', Ret).
Proof. simpl. repeat split; reflexivity. Qed.

(** C6. When the server-side search call of [searchMachines] is rejected,
    the cycle leaves [error] as it was, stores the result of the client-side
    fallback filter in [filteredMachines], and ends with [loading] false.
    [captured] is the snapshot of the closure, [state] the snapshot when the
    function is called. *)
Theorem searchMachines_fallback (captured state : DashboardState)
    (filters : PartialFilters.t) (all : Settled LoadPayload) (backendError : Thrown) :
  let state' :=
    run_task all (Rejected backendError) (searchMachines captured filters) state in
  error state' = error state /\
  filteredMachines state' = clientFilteredMachines captured filters /\
  loading state' = false.
Proof. simpl. repeat split; reflexivity. Qed.

End DashboardProperties.

(** ** The client-side fallback filter *)

Lemma prefix_spec q s :
  String.prefix q s = true <-> exists post, s = q +:+ post.
Proof.
  revert s. induction q as [|c q IH]; intros s.
  - split; [intros _; exists s; reflexivity | intros _; destruct s; reflexivity].
  - destruct s as [|d s]; simpl.
    + split; [discriminate | intros [post Hp]; discriminate].
    + destruct (ascii_dec c d) as [->|Hne].
      * rewrite IH. split; intros [post Hp]; exists post.
        -- rewrite Hp. reflexivity.
        -- injection Hp as Hp. exact Hp.
      * split; [discriminate | intros [post Hp]; injection Hp as Hc Hp; congruence].
Qed.

Lemma includes_unfold s q :
  includes s q =
  String.prefix q s ||
  match s with EmptyString => false | String _ s' => includes s' q end.
Proof. destruct s; reflexivity. Qed.

Lemma includes_spec s q : includes s q = true <-> isSubstring q s.
Proof.
  split.
  - induction s as [|c s IH]; rewrite includes_unfold, orb_true_iff;
      intros [Hp|Hs]; try discriminate.
    + apply prefix_spec in Hp as [post Hp]. exists "", post. exact Hp.
    + apply prefix_spec in Hp as [post Hp]. exists "", post. exact Hp.
    + destruct (IH Hs) as (pre & post & ->). exists (String c pre), post. reflexivity.
  - intros (pre & post & ->). induction pre as [|c pre IH].
    + rewrite includes_unfold, orb_true_iff. left.
      apply prefix_spec. exists post. reflexivity.
    + rewrite includes_unfold, orb_true_iff. right. exact IH.
Qed.

Lemma not_false_constrains v : not_ v = false <-> constrains v (str v).
Proof.
  unfold constrains. destruct v as [[|c v]|]; simpl; split;
    try discriminate; try tauto; try (intros [? ?]; congruence).
  intros _. split; [reflexivity | discriminate].
Qed.

Lemma constrains_str v q : constrains v q -> q = str v.
Proof. intros [-> _]. reflexivity. Qed.

(** A test [!v || test(v)] of the callback decides the constraint of the
    field [v]. *)
Lemma field_test_spec v (test : string -> bool) (P : string -> Prop) :
  (forall q, test q = true <-> P q) ->
  not_ v || test (str v) = true <-> (forall q, constrains v q -> P q).
Proof.
  intros Htest. rewrite orb_true_iff. split.
  - intros [Hn|Ht] q Hq.
    + pose proof (constrains_str _ _ Hq) as ->.
      apply not_false_constrains in Hq. congruence.
    + pose proof (constrains_str _ _ Hq) as ->. apply Htest, Ht.
  - intros HP. destruct (not_ v) eqn:Hn; [left; reflexivity | right].
    apply Htest, HP, not_false_constrains, Hn.
Qed.

Lemma matchesFilters_spec `{JsString} filters m :
  matchesFilters filters m = true <-> specMatches filters m.
Proof.
  unfold matchesFilters, specMatches.
  rewrite !andb_true_iff, <- orb_assoc.
  rewrite (field_test_spec (PartialFilters.machineName filters)
    (fun q => includes (toLowerCase (machineName m)) (toLowerCase q) ||
              includes (toLowerCase (_id m)) (toLowerCase q))
    (fun q => isSubstring (toLowerCase q) (toLowerCase (machineName m)) \/
              isSubstring (toLowerCase q) (toLowerCase (_id m)))).
  2:{ intros q. rewrite orb_true_iff, !includes_spec. reflexivity. }
  rewrite (field_test_spec (PartialFilters.customer filters)
    (fun q => String.eqb (customer m) q) (fun q => customer m = q))
    by (intros q; apply String.eqb_eq).
  rewrite (field_test_spec (PartialFilters.area filters)
    (fun q => String.eqb (area m) q) (fun q => area m = q))
    by (intros q; apply String.eqb_eq).
  rewrite (field_test_spec (PartialFilters.subarea filters)
    (fun q => String.eqb (subarea m) q) (fun q => subarea m = q))
    by (intros q; apply String.eqb_eq).
  rewrite (field_test_spec (PartialFilters.status filters)
    (fun q => String.eqb (Status_string (status m)) q)
    (fun q => Status_string (status m) = q))
    by (intros q; apply String.eqb_eq).
  tauto.
Qed.

#[export] Instance specMatches_dec `{JsString} filters m :
  Decision (specMatches filters m).
Proof.
  destruct (matchesFilters filters m) eqn:E.
  - left. apply matchesFilters_spec, E.
  - right. intros Hm. apply matchesFilters_spec in Hm. congruence.
Defined.

Lemma List_filter_decide {A} (f : A -> bool) (P : A -> Prop)
    `{forall x, Decision (P x)} (l : list A) :
  (forall x, f x = true <-> P x) -> List.filter f l = filter P l.
Proof.
  intros Hf. induction l as [|x l IH]; [reflexivity|].
  simpl. rewrite filter_cons, IH.
  destruct (decide (P x)) as [Hp|Hp].
  - apply Hf in Hp. rewrite Hp. reflexivity.
  - destruct (f x) eqn:E; [apply Hf in E; contradiction | reflexivity].
Qed.

(** On ASCII strings, lowering both sides compares the letters. *)
Lemma nat_of_ascii_inj a b : nat_of_ascii a = nat_of_ascii b -> a = b.
Proof.
  intros Heq. rewrite <- (ascii_nat_embedding a), <- (ascii_nat_embedding b), Heq.
  reflexivity.
Qed.

Lemma lower_ascii_code c :
  nat_of_ascii (lower_ascii c) =
  if (65 <=? nat_of_ascii c)%nat && (nat_of_ascii c <=? 90)%nat
  then (nat_of_ascii c + 32)%nat else nat_of_ascii c.
Proof.
  unfold lower_ascii.
  destruct ((65 <=? nat_of_ascii c)%nat && (nat_of_ascii c <=? 90)%nat) eqn:E;
    [|reflexivity].
  apply andb_true_iff in E as [_ E]. apply Nat.leb_le in E.
  apply nat_ascii_embedding. lia.
Qed.

Lemma lower_ascii_same a b : lower_ascii a = lower_ascii b <-> sameLetter a b.
Proof.
  unfold sameLetter, isCapital. split.
  - intros Heq. apply (f_equal nat_of_ascii) in Heq.
    rewrite !lower_ascii_code in Heq.
    destruct (decide (nat_of_ascii a = nat_of_ascii b)) as [Hab|Hab];
      [left; apply nat_of_ascii_inj, Hab | right].
    destruct (Nat.leb_spec 65 (nat_of_ascii a)), (Nat.leb_spec (nat_of_ascii a) 90),
             (Nat.leb_spec 65 (nat_of_ascii b)), (Nat.leb_spec (nat_of_ascii b) 90);
      simpl in Heq; lia.
  - intros Hsame. apply nat_of_ascii_inj. rewrite !lower_ascii_code.
    destruct Hsame as [->|Hsame]; [reflexivity|].
    destruct (Nat.leb_spec 65 (nat_of_ascii a)), (Nat.leb_spec (nat_of_ascii a) 90),
             (Nat.leb_spec 65 (nat_of_ascii b)), (Nat.leb_spec (nat_of_ascii b) 90);
      simpl; lia.
Qed.

Lemma lowerASCII_same s : forall t,
  lowerASCII s = lowerASCII t <-> sameIgnoringCase s t.
Proof.
  induction s as [|a s IH]; intros [|b t]; simpl;
    try (split; [discriminate | tauto]); [tauto|].
  rewrite <- IH, <- lower_ascii_same. split.
  - intros Heq. injection Heq as Ha Hs. tauto.
  - intros [-> ->]. reflexivity.
Qed.

Lemma lowerASCII_app s t : lowerASCII (s +:+ t) = lowerASCII s +:+ lowerASCII t.
Proof. induction s as [|c s IH]; simpl; [reflexivity | rewrite IH; reflexivity]. Qed.

Lemma lowerASCII_split s : forall a b,
  lowerASCII s = a +:+ b ->
  exists s1 s2, s = s1 +:+ s2 /\ lowerASCII s1 = a /\ lowerASCII s2 = b.
Proof.
  induction s as [|c s IH]; intros a b Heq.
  - destruct a; [|discriminate]. simpl in Heq. exists "", "". auto.
  - destruct a as [|d a].
    + exists "", (String c s). auto.
    + simpl in Heq. injection Heq as Hc Hs.
      destruct (IH a b Hs) as (s1 & s2 & -> & H1 & H2).
      exists (String c s1), s2. simpl. rewrite Hc, H1. auto.
Qed.

Lemma isSubstring_lowerASCII q s :
  isSubstring (lowerASCII q) (lowerASCII s) <-> occursIgnoringCase q s.
Proof.
  split.
  - intros (pre & post & Heq).
    apply lowerASCII_split in Heq as (s1 & rest & -> & _ & Hrest).
    apply lowerASCII_split in Hrest as (mid & s3 & -> & Hmid & _).
    exists s1, mid, s3. split; [reflexivity|].
    apply lowerASCII_same, Hmid.
  - intros (pre & mid & post & -> & Hsame).
    exists (lowerASCII pre), (lowerASCII post).
    rewrite !lowerASCII_app. apply lowerASCII_same in Hsame. rewrite Hsame.
    reflexivity.
Qed.

Lemma specMatches_ASCII `{JsString} filters m :
  isASCII (str (PartialFilters.machineName filters)) = true ->
  isASCII (machineName m) = true -> isASCII (_id m) = true ->
  specMatches filters m <-> matchesIgnoringCase filters m.
Proof.
  intros Hq Hn Hi. unfold specMatches, matchesIgnoringCase.
  assert (Hfree : forall q, constrains (PartialFilters.machineName filters) q ->
            (isSubstring (toLowerCase q) (toLowerCase (machineName m)) \/
             isSubstring (toLowerCase q) (toLowerCase (_id m))) <->
            (occursIgnoringCase q (machineName m) \/ occursIgnoringCase q (_id m))).
  { intros q Hc. apply constrains_str in Hc. subst q.
    rewrite !toLowerCase_ASCII by assumption.
    rewrite !isSubstring_lowerASCII. reflexivity. }
  split; intros (H1 & Hrest); (split; [|exact Hrest]);
    intros q Hc; apply (Hfree q Hc), H1, Hc.
Qed.

Section FallbackFilter.
Context `{DateFns} `{JsString}.

(** C4. The fallback filter returns exactly the records of [machines] that
    match the criteria: each constrained field must match, the free text as
    a case-insensitive substring of the display name or of the identity,
    the other fields by equality, and an empty or absent field constrains
    nothing. The result keeps the records in the order of [machines]. Letter
    case is set aside by the case mapping of the runtime; on ASCII strings
    this is the comparison of the letters, so that the free text [pump]
    matches the name [PUMP-01]. *)
Theorem clientFilteredMachines_exact (state : DashboardState)
    (filters : PartialFilters.t) :
  clientFilteredMachines state filters = filter (specMatches filters) (machines state) /\
  (forall m, m ∈ clientFilteredMachines state filters <->
             m ∈ machines state /\ specMatches filters m) /\
  sublist (clientFilteredMachines state filters) (machines state) /\
  ((forall q, ~ constrains (PartialFilters.machineName filters) q) ->
   (forall q, ~ constrains (PartialFilters.customer filters) q) ->
   (forall q, ~ constrains (PartialFilters.area filters) q) ->
   (forall q, ~ constrains (PartialFilters.subarea filters) q) ->
   (forall q, ~ constrains (PartialFilters.status filters) q) ->
   clientFilteredMachines state filters = machines state) /\
  (isASCII (str (PartialFilters.machineName filters)) = true ->
   forall m, isASCII (machineName m) = true -> isASCII (_id m) = true ->
     (m ∈ clientFilteredMachines state filters <->
      m ∈ machines state /\ matchesIgnoringCase filters m)) /\
  (forall m, machineName m = "PUMP-01" ->
     matchesFilters
       {| PartialFilters.customer := None; PartialFilters.area := None;
          PartialFilters.subarea := None; PartialFilters.machineName := Some "pump";
          PartialFilters.status := None |} m = true).
Proof.
  assert (Heq : clientFilteredMachines state filters
                = filter (specMatches filters) (machines state)).
  { apply List_filter_decide, matchesFilters_spec. }
  split; [exact Heq|]. rewrite Heq.
  split; [|split; [|split; [|split]]].
  - intros m. rewrite list_elem_of_filter. tauto.
  - apply sublist_filter.
  - intros H1 H2 H3 H4 H5. clear Heq.
    induction (machines state) as [|m l IH]; [reflexivity|].
    rewrite filter_cons, IH.
    destruct (decide (specMatches filters m)) as [|Hn]; [reflexivity|].
    exfalso. apply Hn. unfold specMatches.
    repeat split; intros q Hq; exfalso;
      [exact (H1 q Hq) | exact (H2 q Hq) | exact (H3 q Hq)
      | exact (H4 q Hq) | exact (H5 q Hq)].
  - intros Hq m Hn Hi. rewrite list_elem_of_filter.
    rewrite (specMatches_ASCII filters m Hq Hn Hi). tauto.
  - intros m Hm. unfold matchesFilters. cbn [PartialFilters.machineName str default not_ truthy negb orb].
    rewrite Hm. rewrite !toLowerCase_ASCII by reflexivity. reflexivity.
Qed.

End FallbackFilter.

(** ** [filteredMachines] within [machines] *)

Section FilteredSubset.
Context `{DateFns} `{JsString}.

Lemma subsetById_refl xs : subsetById xs xs.
Proof. intros m Hm. exists m. split; [exact Hm | reflexivity]. Qed.

Lemma subsetById_filter (f : Machine -> bool) xs : subsetById (List.filter f xs) xs.
Proof.
  intros m Hm. exists m. split; [|reflexivity].
  apply list_elem_of_In. apply list_elem_of_In, filter_In in Hm. tauto.
Qed.

(** A fallback computed from the current snapshot records a list within
    [machines]. *)
Lemma fallback_within (state : DashboardState) filters :
  subsetById (clientFilteredMachines state filters) (machines state).
Proof. apply subsetById_filter. Qed.

Lemma tracked_machines s s' t b :
  machines s' = machines s -> tracked s t b -> tracked s' t b.
Proof.
  intros Hm [Hload|(c & f & s0 & Ht & Hc)]; [left; exact Hload | right].
  exists c, f, s0. split; [exact Ht|]. rewrite Hm. exact Hc.
Qed.

Lemma tracked_overtaken s s' t b : tracked s t b -> tracked s' t false.
Proof.
  intros [Hload|(c & f & s0 & Ht & _)]; [left; exact Hload | right].
  exists c, f, s0. split; [exact Ht | discriminate].
Qed.

Lemma Forall2_tracked_machines s s' ts bs :
  machines s' = machines s ->
  Forall2 (tracked s) ts bs -> Forall2 (tracked s') ts bs.
Proof.
  intros Hm Hfl. eapply Forall2_impl; [exact Hfl|].
  intros t b. apply tracked_machines, Hm.
Qed.

Lemma consistent_initial : consistent initialSystem [].
Proof. split; [apply subsetById_refl | constructor]. Qed.

Lemma consistent_step sys current e sys' :
  consistent sys current -> answered sys current e -> step sys e = Some sys' ->
  consistent sys' (track current e).
Proof.
  intros [Hsub Hfl] Hans Hstep.
  destruct e as [date|filters| |date|i outcome|i outcome]; simpl in Hstep.
  - injection Hstep as <-. split; simpl; [exact Hsub|].
    apply Forall2_app; [apply (Forall2_tracked_machines (store sys)), Hfl; reflexivity|].
    constructor; [|constructor]. left. exists date, (store sys). reflexivity.
  - injection Hstep as <-. split; simpl; [exact Hsub|].
    apply Forall2_app; [apply (Forall2_tracked_machines (store sys)), Hfl; reflexivity|].
    constructor; [|constructor]. right. exists (store sys), filters, (store sys).
    split; reflexivity.
  - injection Hstep as <-. split; simpl; [apply subsetById_refl|].
    apply (Forall2_tracked_machines (store sys)), Hfl. reflexivity.
  - injection Hstep as <-. split; simpl; [exact Hsub|].
    apply Forall2_app; [apply (Forall2_tracked_machines (store sys)), Hfl; reflexivity|].
    constructor; [|constructor]. left. exists date, (store sys). reflexivity.
  - destruct (inflight sys !! i) as [t|] eqn:Hi; [|discriminate].
    destruct t as [| | sd ed k |]; try discriminate.
    injection Hstep as <-.
    destruct (Forall2_lookup_l _ _ _ _ _ Hfl Hi) as (b & _ & Ht).
    destruct Ht as [(d & s & Ht)|(c & f & s & Ht & _)]; simpl in Ht; [|discriminate].
    injection Ht as -> -> ->.
    destruct outcome as [[[[m kp] st] ht]|err]; simpl.
    + split; simpl; [apply subsetById_refl|].
      apply Forall2_fmap_r.
      eapply Forall2_impl; [apply Forall2_delete, Hfl|].
      intros t b'. apply tracked_overtaken.
    + split; simpl; [exact Hsub|].
      apply (Forall2_tracked_machines (store sys)); [reflexivity|].
      apply Forall2_delete, Hfl.
  - destruct (inflight sys !! i) as [t|] eqn:Hi; [|discriminate].
    destruct t as [| | | p k]; try discriminate.
    injection Hstep as <-.
    destruct (Forall2_lookup_l _ _ _ _ _ Hfl Hi) as (b & Hb & Ht).
    destruct Ht as [(d & s & Ht)|(c & f & s & Ht & Hc)]; simpl in Ht; [discriminate|].
    injection Ht as -> ->.
    destruct outcome as [result|err]; simpl in *.
    + split; simpl; [exact Hans|].
      apply (Forall2_tracked_machines (store sys)); [reflexivity|].
      apply Forall2_delete, Hfl.
    + split; simpl.
      * rewrite Hb in Hans. injection Hans as ->.
        rewrite <- (Hc eq_refl). apply fallback_within.
      * apply (Forall2_tracked_machines (store sys)); [reflexivity|].
        apply Forall2_delete, Hfl.
Qed.

Lemma consistent_steps es : forall sys current sys',
  consistent sys current -> admissible sys current es -> steps sys es = Some sys' ->
  exists current', consistent sys' current'.
Proof.
  induction es as [|e es IH]; intros sys current sys' Hc Hg Hs; simpl in *.
  - injection Hs as <-. exists current. exact Hc.
  - destruct Hg as [Hans Hg].
    destruct (step sys e) as [sys1|] eqn:He; [|discriminate].
    apply (IH sys1 (track current e) sys'); [|exact Hg|exact Hs].
    apply (consistent_step sys current e); assumption.
Qed.

(** C3, as the code has it. In every state reached from the initial one
    through calls of the exposed actions and the settling of their gateway
    calls, in any order, [filteredMachines] is a subset of [machines] by
    [_id], provided every answer of the server to a search only has records
    of the current [machines]: the answer is stored as received. The runs
    are those in which the client-side fallback is not taken by a search
    that a fulfilled load has overtaken. *)
Theorem filteredMachines_subset (es : list Event) (sys : System) :
  steps initialSystem es = Some sys ->
  admissible initialSystem [] es ->
  subsetById (filteredMachines (store sys)) (machines (store sys)).
Proof.
  intros Hs Hg.
  destruct (consistent_steps es initialSystem [] sys consistent_initial Hg Hs)
    as (current & Hsub & _).
  exact Hsub.
Qed.

End FilteredSubset.

(** ** The debounce of [SearchFilters] *)

Section Debounce.

Lemma set_now_same c : set_now (now c) c = c.
Proof. destruct c; reflexivity. Qed.

Lemma elapse_add a b c : elapse (a + b) c = elapse b (elapse a c).
Proof. revert c. induction a as [|a IH]; intros c; simpl; [reflexivity | apply IH]. Qed.

(** No timer, or a timer whose deadline is not reached: only the clock
    moves. *)
Lemma elapse_idle q c :
  timeoutId c = None -> elapse q c = set_now (now c + q)%nat c.
Proof.
  revert c. induction q as [|q IH]; intros c Hc; simpl.
  - rewrite Nat.add_0_r. symmetry. apply set_now_same.
  - unfold tick. rewrite Hc. rewrite IH by reflexivity.
    unfold set_now. simpl. rewrite ?Hc. f_equal; lia.
Qed.

Lemma elapse_quiet q c deadline closure :
  timeoutId c = Some (deadline, closure) ->
  (now c + q < deadline)%nat ->
  elapse q c = set_now (now c + q)%nat c.
Proof.
  revert c. induction q as [|q IH]; intros c Hc Hlt; simpl.
  - rewrite Nat.add_0_r. symmetry. apply set_now_same.
  - unfold tick. rewrite Hc. simpl.
    destruct (deadline <=? S (now c))%nat eqn:E.
    + apply Nat.leb_le in E. lia.
    + rewrite IH; simpl; [|rewrite ?Hc; reflexivity|lia].
      unfold set_now. simpl. rewrite ?Hc. f_equal; lia.
Qed.

Lemma tick_fires c closure :
  timeoutId c = Some (S (now c), closure) ->
  tick c = fire closure (set_now (S (now c)) c).
Proof.
  intros Hc. unfold tick. rewrite Hc. simpl.
  rewrite Nat.leb_refl. reflexivity.
Qed.

Lemma edit_armed c e :
  changes c e = true -> armed (edit e c) /\ calls (edit e c) = calls c /\
  now (edit e c) = now c.
Proof.
  intros Hch. unfold edit. rewrite Hch.
  destruct e; unfold armed; simpl; auto.
Qed.

Lemma burst_armed es : forall c,
  armed c -> burst es c ->
  armed (edits es c) /\ calls (edits es c) = calls c.
Proof.
  induction es as [|[gap e] es IH]; intros c Harmed Hb; simpl.
  - split; [exact Harmed | reflexivity].
  - simpl in Hb. destruct Hb as (Hgap & Hch & Hb).
    destruct (edit_armed _ _ Hch) as (Ha & Hcalls & _).
    destruct (IH _ Ha Hb) as [Ha' Hcalls'].
    split; [exact Ha'|]. rewrite Hcalls', Hcalls.
    unfold armed in Harmed.
    rewrite (elapse_quiet gap c _ _ Harmed) by lia. reflexivity.
Qed.

(** From an armed timer: nothing is called before 300ms; the timer fires
    at 300ms and calls [searchMachines] once, with the criteria of the
    render that armed it, when some criterion is set. *)
Lemma armed_fires c q :
  armed c ->
  ((q < 300)%nat -> calls (elapse q c) = calls c) /\
  ((300 <= q < 600)%nat ->
   calls (elapse q c) =
   calls c ++
   (if anyCriteria (searchTerm c) (localFilters c)
    then [((now c + 300)%nat, criteria (searchTerm c) (localFilters c))]
    else [])).
Proof.
  intros Harmed. unfold armed in Harmed. split; intros Hq.
  - rewrite (elapse_quiet q c _ _ Harmed) by lia. reflexivity.
  - replace q with (299 + (1 + (q - 300)))%nat by lia.
    rewrite elapse_add, (elapse_quiet 299 c _ _ Harmed) by lia.
    rewrite (elapse_add 1). cbn [elapse].
    rewrite (tick_fires _ (searchTerm c, localFilters c))
      by (simpl; rewrite Harmed; do 2 f_equal; lia).
    unfold fire.
    destruct (anyCriteria (searchTerm c) (localFilters c)) eqn:Hany.
    + erewrite elapse_quiet; [|reflexivity|simpl; lia].
      simpl. do 3 f_equal. lia.
    + rewrite elapse_idle by reflexivity. simpl. rewrite app_nil_r. reflexivity.
Qed.

(** The debounce proper. After a burst of edits, each less than 300ms
    after the previous one, the timer armed by the last edit is pending and
    no search was called during the burst: each edit cancelled the pending
    timer and armed a new one. The timer fires 300ms after the last edit;
    it calls [searchMachines], with the criteria of the last edit, when the
    search term or a local filter is not empty, and does not call it when
    they are all empty. *)
Lemma debounce_last_edit (c0 : Component) (first : Edit) (rest : list (nat * Edit)) :
  changes c0 first = true ->
  burst rest (edit first c0) ->
  let c := edits rest (edit first c0) in
  timeoutId c = Some ((now c + 300)%nat, (searchTerm c, localFilters c)) /\
  calls c = calls c0 /\
  (forall q, (q < 300)%nat -> calls (elapse q c) = calls c0) /\
  (forall q, (300 <= q < 600)%nat ->
     calls (elapse q c) =
     calls c0 ++
     (if anyCriteria (searchTerm c) (localFilters c)
      then [((now c + 300)%nat, criteria (searchTerm c) (localFilters c))]
      else [])).
Proof.
  intros Hfirst Hburst c.
  destruct (edit_armed _ _ Hfirst) as (Ha & Hcalls & _).
  destruct (burst_armed rest _ Ha Hburst) as [Harmed Hcalls'].
  fold c in Harmed, Hcalls'.
  assert (Hc : calls c = calls c0) by congruence.
  split; [exact Harmed|]. split; [exact Hc|].
  split; intros q Hq; rewrite <- Hc; apply (armed_fires c q Harmed); exact Hq.
Qed.

Lemma armed_elapse_300 c :
  armed c ->
  elapse 300 c = fire (searchTerm c, localFilters c) (set_now (now c + 300)%nat c).
Proof.
  intros Harmed. unfold armed in Harmed.
  change 300%nat with (299 + 1)%nat at 1.
  rewrite elapse_add, (elapse_quiet 299 c _ _ Harmed) by lia.
  cbn [elapse].
  rewrite (tick_fires _ (searchTerm c, localFilters c))
    by (simpl; rewrite Harmed; do 2 f_equal; lia).
  f_equal. unfold set_now. simpl. f_equal. lia.
Qed.

Lemma criteria_merged term filters :
  criteria term (mergeFilters filters (criteria term filters)) = criteria term filters.
Proof. reflexivity. Qed.

Lemma anyCriteria_merged term filters :
  truthy term ||
  existsb truthy
    [SearchFilters.customer filters; SearchFilters.area filters;
     SearchFilters.subarea filters; SearchFilters.status filters] = true ->
  anyCriteria term filters = true /\
  anyCriteria term (mergeFilters filters (criteria term filters)) = true.
Proof.
  unfold anyCriteria, mergeFilters, criteria. cbn.
  destruct (truthy term), (truthy (SearchFilters.customer filters)),
    (truthy (SearchFilters.area filters)), (truthy (SearchFilters.subarea filters)),
    (truthy (SearchFilters.machineName filters)),
    (truthy (SearchFilters.status filters)); cbn; intros Hset;
    split; try reflexivity; discriminate.
Qed.

(** One period of the timer, with a search term or a dropdown filter set:
    the search is called and the effect is armed again, with the same
    criteria. *)
Lemma armed_period c :
  armed c -> criteriaSet c = true ->
  armed (elapse 300 c) /\
  criteriaSet (elapse 300 c) = true /\
  calls (elapse 300 c) =
    calls c ++ [((now c + 300)%nat, criteria (searchTerm c) (localFilters c))] /\
  now (elapse 300 c) = (now c + 300)%nat /\
  criteria (searchTerm (elapse 300 c)) (localFilters (elapse 300 c)) =
    criteria (searchTerm c) (localFilters c).
Proof.
  intros Harmed Hset.
  destruct (anyCriteria_merged _ _ Hset) as [Hany _].
  pose proof (armed_elapse_300 c Harmed) as H300.
  unfold fire in H300. rewrite Hany in H300.
  rewrite H300. clear H300.
  split; [reflexivity|]. split; [exact Hset|].
  split; [reflexivity|]. split; reflexivity.
Qed.

Lemma armed_repeats n : forall c,
  armed c -> criteriaSet c = true ->
  calls (elapse (300 * n) c) =
  calls c ++
  map (fun k => ((now c + 300 * (k + 1))%nat, criteria (searchTerm c) (localFilters c)))
      (seq 0 n).
Proof.
  induction n as [|n IH]; intros c Harmed Hset.
  - rewrite Nat.mul_0_r. cbn [elapse seq map]. rewrite app_nil_r. reflexivity.
  - replace (300 * S n)%nat with (300 + 300 * n)%nat by lia.
    rewrite elapse_add.
    destruct (armed_period c Harmed Hset) as (Harmed' & Hset' & Hcalls & Hnow & Hsent).
    rewrite (IH _ Harmed' Hset'), Hcalls, Hnow, Hsent.
    rewrite <- app_assoc. f_equal.
    rewrite <- cons_seq, <- seq_shift. cbn [map app]. rewrite map_map.
    replace (now c + 300 * (0 + 1))%nat with (now c + 300)%nat by lia.
    apply f_equal, map_ext. intros k.
    replace (now c + 300 + 300 * (k + 1))%nat with (now c + 300 * (S k + 1))%nat by lia.
    reflexivity.
Qed.

(** C7, where the code departs from it. After a burst of edits, each less
    than 300ms after the previous one, that leaves a search term or a
    dropdown filter set, no search is called during the burst nor in the
    300ms after it, and the timer armed by the last edit calls
    [searchMachines] 300ms after that edit with its criteria. The call is
    not the only one: its dispatches render the provider again, the effect
    is armed again, and the same search is called every 300ms from then on,
    [n] times in [300 * n] milliseconds, with no further edit. *)
Theorem debounce_searches_again (c0 : Component) (first : Edit)
    (rest : list (nat * Edit)) :
  changes c0 first = true ->
  burst rest (edit first c0) ->
  let c := edits rest (edit first c0) in
  criteriaSet c = true ->
  let sent := criteria (searchTerm c) (localFilters c) in
  calls c = calls c0 /\
  (forall q, (q < 300)%nat -> calls (elapse q c) = calls c0) /\
  (forall q, (300 <= q < 600)%nat ->
     calls (elapse q c) = calls c0 ++ [((now c + 300)%nat, sent)]) /\
  calls (elapse 600 c) =
    calls c0 ++ [((now c + 300)%nat, sent); ((now c + 600)%nat, sent)] /\
  (forall n, calls (elapse (300 * n) c) =
     calls c0 ++ map (fun k => ((now c + 300 * (k + 1))%nat, sent)) (seq 0 n)) /\
  (forall n, length (calls (elapse (300 * n) c)) = (length (calls c0) + n)%nat).
Proof.
  intros Hfirst Hburst c Hset sent.
  destruct (edit_armed _ _ Hfirst) as (Ha & Hcalls & _).
  destruct (burst_armed rest _ Ha Hburst) as [Harmed Hcalls'].
  fold c in Harmed, Hcalls'.
  assert (Hc : calls c = calls c0) by congruence.
  destruct (anyCriteria_merged _ _ Hset) as [Hany _].
  assert (Hgen : forall n, calls (elapse (300 * n) c) =
            calls c0 ++ map (fun k => ((now c + 300 * (k + 1))%nat, sent)) (seq 0 n)).
  { intros n. rewrite (armed_repeats n c Harmed Hset), Hc. reflexivity. }
  split; [exact Hc|].
  split; [intros q Hq; rewrite <- Hc; apply (armed_fires c q Harmed); exact Hq|].
  split.
  { intros q Hq. destruct (armed_fires c q Harmed) as [_ Hfire].
    rewrite (Hfire Hq), Hany, Hc. reflexivity. }
  split.
  { change 600%nat with (300 * 2)%nat at 1. rewrite Hgen. reflexivity. }
  split; [exact Hgen|].
  intros n. rewrite Hgen, length_app, length_map, length_seq. reflexivity.
Qed.

End Debounce.

(** ** [HourlyTrendChart] *)

Section ArraySortProperties.
Context {A : Type} (key : A -> Z).

Let compare (a b : A) : Z := key a - key b.

Lemma sort_insert_Permutation x l : sort_insert compare x l ≡ₚ x :: l.
Proof.
  induction l as [|y l IH]; simpl; [reflexivity|].
  destruct (compare x y <=? 0); [reflexivity|].
  rewrite IH. apply Permutation_swap.
Qed.

Lemma Array_sort_Permutation l : Array_sort compare l ≡ₚ l.
Proof.
  induction l as [|x l IH]; simpl; [reflexivity|].
  rewrite sort_insert_Permutation, IH. reflexivity.
Qed.

Lemma sort_insert_sorted x l :
  StronglySorted (fun a b => key a <= key b) l ->
  StronglySorted (fun a b => key a <= key b) (sort_insert compare x l).
Proof.
  induction 1 as [|y l Hs IH Hy]; simpl.
  - repeat constructor.
  - unfold compare at 1. destruct (key x - key y <=? 0) eqn:E.
    + apply Z.leb_le in E. constructor; [constructor; assumption|].
      constructor; [lia|].
      eapply Forall_impl; [exact Hy|]. simpl. intros z Hz. lia.
    + apply Z.leb_gt in E. constructor; [exact IH|].
      rewrite sort_insert_Permutation. constructor; [lia | exact Hy].
Qed.

Lemma Array_sort_sorted l :
  StronglySorted (fun a b => key a <= key b) (Array_sort compare l).
Proof.
  induction l as [|x l IH]; simpl; [constructor | apply sort_insert_sorted, IH].
Qed.

(** The sort is stable: the elements of one key keep their order. *)
Lemma sort_insert_stable k x l :
  filter (fun a => key a = k) (sort_insert compare x l) =
  filter (fun a => key a = k) (x :: l).
Proof.
  induction l as [|y l IH]; simpl; [reflexivity|].
  unfold compare at 1. destruct (key x - key y <=? 0) eqn:E; [reflexivity|].
  apply Z.leb_gt in E.
  rewrite (filter_cons _ y), IH, !filter_cons.
  destruct (decide (key y = k)), (decide (key x = k)); try reflexivity. lia.
Qed.

Lemma Array_sort_stable k l :
  filter (fun a => key a = k) (Array_sort compare l) = filter (fun a => key a = k) l.
Proof.
  induction l as [|x l IH]; simpl; [reflexivity|].
  rewrite sort_insert_stable, !filter_cons, IH. reflexivity.
Qed.

End ArraySortProperties.

Lemma timeString_24h h : 0 <= h <= 23 -> timeString h = twoDigits h +:+ ":00".
Proof.
  intros Hh. rewrite <- (Z2Nat.id h) by lia.
  assert (Hn : (Z.to_nat h < 24)%nat) by lia.
  revert Hn. generalize (Z.to_nat h). intros n Hn.
  do 24 (destruct n as [|n]; [vm_compute; reflexivity|]). lia.
Qed.

(** C8. The hourly aggregation orders the points by ascending hour, with a
    stable sort; the labels are the hours of the ordered points, written
    with two digits and [:00] for the hours of the day, and the data are
    their counts, each as received. The points [{hour:5,count:3}],
    [{hour:2,count:1}] give the labels ["02:00"], ["05:00"] and the counts
    [1], [3]; no point gives no label and no dataset. *)
Theorem HourlyTrendChart_ordered (hourlyTrends : list HourlyTrend)
    (viewMode : HourlyViewMode) :
  let chart := HourlyTrendChart_chartData hourlyTrends viewMode in
  (hourlyTrends = [] -> labels chart = [] /\ datasets chart = []) /\
  (hourlyTrends <> [] ->
   exists sortedTrends,
     sortedTrends ≡ₚ hourlyTrends /\
     StronglySorted (fun a b => hour a <= hour b) sortedTrends /\
     (forall h, filter (fun t => hour t = h) sortedTrends =
                filter (fun t => hour t = h) hourlyTrends) /\
     labels chart = map (fun t => timeString (hour t)) sortedTrends /\
     map data (datasets chart) = [map count sortedTrends]) /\
  (forall t, t ∈ hourlyTrends -> 0 <= hour t <= 23 ->
     timeString (hour t) = twoDigits (hour t) +:+ ":00") /\
  (let example :=
     HourlyTrendChart_chartData
       [{| hour := 5; count := 3 |}; {| hour := 2; count := 1 |}] viewMode in
   labels example = ["02:00"; "05:00"] /\ map data (datasets example) = [[1; 3]]).
Proof.
  split; [|split; [|split]].
  - intros ->. split; reflexivity.
  - intros Hne.
    exists (Array_sort (fun a b => hour a - hour b) hourlyTrends).
    split; [apply (Array_sort_Permutation hour)|].
    split; [apply (Array_sort_sorted hour)|].
    split; [intros h; apply (Array_sort_stable hour)|].
    destruct hourlyTrends as [|t ts]; [contradiction|].
    split; reflexivity.
  - intros t _ Ht. apply timeString_24h, Ht.
  - split; reflexivity.
Qed.

(** ** [CustomerTrendChart] *)

Lemma foldl_Set_add xs : forall acc,
  NoDup acc ->
  NoDup (foldl Set_add acc xs) /\
  (forall x, x ∈ foldl Set_add acc xs <-> x ∈ acc \/ x ∈ xs).
Proof.
  induction xs as [|a xs IH]; intros acc Hnd; simpl.
  - split; [exact Hnd|]. intros x. rewrite elem_of_nil. tauto.
  - unfold Set_add at 2 4. destruct (bool_decide (a ∈ acc)) eqn:E.
    + apply bool_decide_eq_true in E.
      destruct (IH acc Hnd) as [Hnd' Hin]. split; [exact Hnd'|].
      intros x. rewrite Hin, elem_of_cons. split; [tauto|].
      intros [Hx|[->|Hx]]; tauto.
    + apply bool_decide_eq_false in E.
      assert (Hnd1 : NoDup (acc ++ [a])).
      { apply NoDup_app. split; [exact Hnd|]. split; [|apply NoDup_singleton].
        intros x Hx Hxa. apply list_elem_of_singleton in Hxa. congruence. }
      destruct (IH _ Hnd1) as [Hnd' Hin]. split; [exact Hnd'|].
      intros x. rewrite Hin, elem_of_app, list_elem_of_singleton, elem_of_cons. tauto.
Qed.

Lemma Set_spread_NoDup xs : NoDup (Set_spread xs).
Proof. apply foldl_Set_add, NoDup_nil_2. Qed.

Lemma Set_spread_elem xs x : x ∈ Set_spread xs <-> x ∈ xs.
Proof.
  unfold Set_spread.
  destruct (foldl_Set_add xs [] NoDup_nil_2) as [_ Hin].
  rewrite Hin, elem_of_nil. tauto.
Qed.

Lemma imap_snd {A} (l : list A) : forall g : nat -> A -> nat * A,
  (forall i x, snd (g i x) = x) -> (imap g l).*2 = l.
Proof.
  induction l as [|x l IH]; intros g Hg; [reflexivity|].
  rewrite imap_cons, fmap_cons, Hg, IH; [reflexivity|].
  intros i y. apply Hg.
Qed.

Lemma imap_label (l : list string) : forall g : nat -> string -> Dataset,
  (forall i x, label (g i x) = x) -> map label (imap g l) = l.
Proof.
  induction l as [|x l IH]; intros g Hg; [reflexivity|].
  rewrite imap_cons. simpl. rewrite Hg, IH; [reflexivity|].
  intros i y. apply Hg.
Qed.

Lemma Zsum_app l k : Zsum (l ++ k) = Zsum l + Zsum k.
Proof. induction l as [|x l IH]; simpl; [reflexivity|]. rewrite IH. lia. Qed.

Lemma filter_none {A} (f : A -> string) v (l : list A) :
  (forall y, y ∈ l -> f y <> v) -> filter (fun y => f y = v) l = [].
Proof.
  induction l as [|a l IH]; intros Hl; [reflexivity|].
  rewrite filter_cons. destruct (decide (f a = v)) as [Heq|_].
  - exfalso. apply (Hl a); [apply list_elem_of_here | exact Heq].
  - apply IH. intros y Hy. apply Hl, list_elem_of_further, Hy.
Qed.

Lemma filter_unique {A} (f : A -> string) (l : list A) x :
  NoDup (map f l) -> x ∈ l -> filter (fun y => f y = f x) l = [x].
Proof.
  induction l as [|a l IH]; intros Hnd Hx; [inversion Hx|].
  change (map f (a :: l)) with (f a :: (f <$> l)) in Hnd.
  apply NoDup_cons in Hnd as [Hna Hnd].
  rewrite filter_cons. apply elem_of_cons in Hx as [->|Hx].
  - destruct (decide (f a = f a)) as [_|Hne]; [|contradiction].
    rewrite filter_none; [reflexivity|].
    intros y Hy Heq. apply Hna. rewrite <- Heq. apply list_elem_of_fmap_2, Hy.
  - destruct (decide (f a = f x)) as [Heq|_].
    + exfalso. apply Hna. rewrite Heq. apply list_elem_of_fmap_2, Hx.
    + apply IH; assumption.
Qed.

Section CustomerTrendProperties.
Context `{DateFns} `{JsNumber}.

Lemma init_lookup customers : forall (acc : gmap string (gmap string StatusCounts)) c,
  foldl (fun customerData customer => <[customer := ∅]> customerData) acc customers !! c
  = if decide (c ∈ customers) then Some ∅ else acc !! c.
Proof.
  induction customers as [|a cs IH]; intros acc c; simpl.
  - destruct (decide (c ∈ [])) as [Hin|_]; [inversion Hin | reflexivity].
  - rewrite IH.
    destruct (decide (c ∈ cs)) as [Hin|Hnin];
      destruct (decide (c ∈ a :: cs)) as [Hin'|Hnin']; try reflexivity.
    + exfalso. apply Hnin', list_elem_of_further, Hin.
    + apply elem_of_cons in Hin' as [->|Hin']; [apply lookup_insert_eq | contradiction].
    + apply lookup_insert_ne. intros ->. apply Hnin', list_elem_of_here.
Qed.

Lemma addTrendFor_eq customers trend customerData index customer :
  addTrendFor customers trend customerData (index, customer) =
  <[customer := bump customers index trend (default ∅ (customerData !! customer))]>
    customerData.
Proof.
  unfold addTrendFor, bump, dateLabel.
  destruct (default ∅ (customerData !! customer) !! format_MMM_dd (date trend)) eqn:E.
  - rewrite E. reflexivity.
  - rewrite lookup_insert_eq, insert_insert_eq. reflexivity.
Qed.

Lemma addTrend_pairs customers trend (l : list (nat * string)) : forall customerData,
  NoDup (l.*2) ->
  (forall i c, (i, c) ∈ l ->
     foldl (addTrendFor customers trend) customerData l !! c =
     Some (bump customers i trend (default ∅ (customerData !! c)))) /\
  (forall c, c ∉ l.*2 ->
     foldl (addTrendFor customers trend) customerData l !! c = customerData !! c).
Proof.
  induction l as [|[i0 c0] l IH]; intros cd Hnd.
  - split; [intros i c Hin; inversion Hin | reflexivity].
  - rewrite fmap_cons in Hnd. simpl in Hnd.
    apply NoDup_cons in Hnd as [Hc0 Hnd].
    cbn [foldl]. rewrite addTrendFor_eq.
    destruct (IH (<[c0 := bump customers i0 trend (default ∅ (cd !! c0))]> cd) Hnd)
      as [IH1 IH2].
    split.
    + intros i c Hin. apply elem_of_cons in Hin as [Heq|Hin].
      * injection Heq as -> ->. rewrite IH2 by exact Hc0. apply lookup_insert_eq.
      * rewrite (IH1 i c Hin).
        rewrite lookup_insert_ne; [reflexivity|].
        intros ->. apply Hc0.
        change c with (snd (i, c)). apply list_elem_of_fmap_2, Hin.
    + intros c Hc. rewrite fmap_cons in Hc. simpl in Hc.
      apply not_elem_of_cons in Hc as [Hne Hc].
      rewrite IH2 by exact Hc. apply lookup_insert_ne. congruence.
Qed.

Lemma addTrend_lookup customers trend customerData i c :
  NoDup customers -> customers !! i = Some c ->
  addTrend customers customerData trend !! c =
  Some (bump customers i trend (default ∅ (customerData !! c))).
Proof.
  intros Hnd Hi. unfold addTrend.
  apply addTrend_pairs.
  - rewrite imap_snd; [exact Hnd | reflexivity].
  - apply elem_of_lookup_imap. exists i, c. split; [reflexivity | exact Hi].
Qed.

Lemma bump_lookup customers i trend byDate d :
  bump customers i trend byDate !! d = accStep customers i d (byDate !! d) trend.
Proof.
  unfold bump, accStep. destruct (decide (dateLabel trend = d)) as [<-|Hne].
  - apply lookup_insert_eq.
  - apply lookup_insert_ne, Hne.
Qed.

(** The map built by the two loops, read at a customer and a date. *)
Lemma customerData_lookup customers trends i c :
  NoDup customers -> customers !! i = Some c ->
  exists byDate,
    foldl (addTrend customers)
      (foldl (fun customerData customer => <[customer := ∅]> customerData) ∅ customers)
      trends !! c = Some byDate /\
    forall d, byDate !! d = accFor customers i d trends.
Proof.
  intros Hnd Hi. induction trends as [|t ts IH] using rev_ind.
  - exists ∅. split; [|intros d; apply lookup_empty].
    simpl. rewrite init_lookup.
    destruct (decide (c ∈ customers)) as [_|Hn]; [reflexivity|].
    exfalso. apply Hn. eapply list_elem_of_lookup_2, Hi.
  - destruct IH as (byDate & Hlook & Hacc).
    exists (bump customers i t byDate). split.
    + rewrite foldl_snoc, (addTrend_lookup _ _ _ i) by assumption.
      rewrite Hlook. reflexivity.
    + intros d. rewrite bump_lookup, Hacc. unfold accFor.
      rewrite foldl_snoc. reflexivity.
Qed.

Lemma totalCounts_addShares customers i acc counts :
  totalCounts (addShares customers i (default zeroCounts acc) counts) =
  accTotal acc +
  Zsum (map (roundedShare customers i)
          [cNormal counts; cSatisfactory counts; cAlert counts; cUnacceptable counts]).
Proof.
  destruct acc as [tr|]; unfold totalCounts, accTotal, addShares, Zsum; simpl;
    unfold totalCounts; lia.
Qed.

Lemma accTotal_accFor customers i d trends :
  accTotal (accFor customers i d trends) = customerValue customers i trends d.
Proof.
  unfold customerValue, accFor.
  induction trends as [|t ts IH] using rev_ind; [reflexivity|].
  rewrite foldl_snoc, filter_app, map_app, Zsum_app, <- IH.
  unfold accStep at 1. rewrite filter_cons, filter_nil.
  destruct (decide (dateLabel t = d)) as [_|_].
  - cbn [accTotal]. rewrite totalCounts_addShares. unfold trendShare. simpl. lia.
  - simpl. lia.
Qed.

Lemma chartData_nonempty statusTrends machines :
  statusTrends <> [] ->
  CustomerTrendChart_chartData statusTrends machines =
  let customers := Set_spread (map customer machines) in
  let customerData :=
    foldl (addTrend customers)
      (foldl (fun customerData customer => <[customer := ∅]> customerData) ∅ customers)
      statusTrends in
  let allDates :=
    Array_sort (fun a b => Date_getTime a - Date_getTime b)
      (Set_spread (map (fun trend => format_MMM_dd (date trend)) statusTrends)) in
  {| labels := allDates;
     datasets :=
       imap (fun index customer =>
               let customerTrends := default ∅ (customerData !! customer) in
               {| label := customer;
                  data := map (fun date =>
                                 match customerTrends !! date with
                                 | None => 0
                                 | Some trend => totalCounts trend
                                 end) allDates |})
            customers |}.
Proof. destruct statusTrends; [contradiction | reflexivity]. Qed.

(** The sum of the source's shares of one trend point is the sum of
    [Math.round((count / N) * (i + 1))] over its four counts. *)
Lemma trendShare_formula customers i t :
  trendShare customers i t =
  let share count :=
    Math_round
      (Number_mul
         (Number_div (Number_of_Z count) (Number_of_Z (Z.of_nat (length customers))))
         (Number_of_Z (Z.of_nat i + 1))) in
  share (cNormal (status_counts t)) + share (cSatisfactory (status_counts t)) +
  share (cAlert (status_counts t)) + share (cUnacceptable (status_counts t)).
Proof.
  unfold trendShare, roundedShare, Zsum. cbn [map foldr].
  replace (Z.of_nat (i + 1)) with (Z.of_nat i + 1) by lia.
  cbn zeta. lia.
Qed.

(** C9. For a status-trend series that is not empty, the customer
    aggregation has one dataset per distinct customer of [machines], in
    order of first occurrence, and one label per distinct date. The value
    of the customer of index [i] at a date is the sum, over the trend
    points of that date and over the four statuses, of
    [Math.round((count / N) * (i + 1))], with [N] the number of distinct
    customers; when every date occurs once, it is that sum for the one
    point of the date. *)
Theorem CustomerTrendChart_shares (statusTrends : list StatusTrend)
    (machines : list Machine) :
  statusTrends <> [] ->
  let chart := CustomerTrendChart_chartData statusTrends machines in
  let customers := Set_spread (map customer machines) in
  let N := Z.of_nat (length customers) in
  let share (i : nat) (count : Z) : Z :=
    Math_round
      (Number_mul (Number_div (Number_of_Z count) (Number_of_Z N))
                  (Number_of_Z (Z.of_nat i + 1))) in
  let shares (i : nat) (t : StatusTrend) : Z :=
    share i (cNormal (status_counts t)) + share i (cSatisfactory (status_counts t)) +
    share i (cAlert (status_counts t)) + share i (cUnacceptable (status_counts t)) in
  NoDup customers /\
  (forall c, c ∈ customers <-> exists m, m ∈ machines /\ customer m = c) /\
  map label (datasets chart) = customers /\
  NoDup (labels chart) /\
  (forall d, d ∈ labels chart <-> exists t, t ∈ statusTrends /\ dateLabel t = d) /\
  (forall i ds, datasets chart !! i = Some ds ->
     data ds =
     map (fun d => Zsum (map (shares i) (filter (fun t => dateLabel t = d) statusTrends)))
         (labels chart)) /\
  (NoDup (map dateLabel statusTrends) ->
   forall i ds j t,
     datasets chart !! i = Some ds ->
     t ∈ statusTrends -> labels chart !! j = Some (dateLabel t) ->
     data ds !! j = Some (shares i t)).
Proof.
  intros Hne chart customers N share shares.
  assert (Hshares : forall i t, trendShare customers i t = shares i t).
  { intros i t. apply trendShare_formula. }
  assert (Hvalue : forall i d,
            customerValue customers i statusTrends d =
            Zsum (map (shares i) (filter (fun t => dateLabel t = d) statusTrends))).
  { intros i d. unfold customerValue. f_equal. apply map_ext. intros t. apply Hshares. }
  assert (Hdata : forall i ds, datasets chart !! i = Some ds ->
            data ds = map (customerValue customers i statusTrends) (labels chart)).
  { subst chart. rewrite (chartData_nonempty _ _ Hne). cbn zeta. fold customers.
    cbn [labels datasets].
    intros i ds Hds. rewrite list_lookup_imap in Hds.
    destruct (customers !! i) as [c|] eqn:Hi; [|discriminate].
    simpl in Hds. injection Hds as <-. cbn [data].
    destruct (customerData_lookup customers statusTrends i c (Set_spread_NoDup _) Hi)
      as (byDate & Hlook & Hacc).
    rewrite Hlook. cbn [default].
    apply map_ext. intros d. rewrite Hacc.
    apply (accTotal_accFor customers i d statusTrends). }
  clearbody shares. clear share Hshares.
  assert (Hperm : labels chart ≡ₚ Set_spread (map dateLabel statusTrends)).
  { subst chart. rewrite (chartData_nonempty _ _ Hne). cbn zeta. cbn [labels].
    apply (Array_sort_Permutation Date_getTime). }
  assert (Hlabel : map label (datasets chart) = customers).
  { subst chart. rewrite (chartData_nonempty _ _ Hne). cbn zeta. cbn [datasets].
    apply imap_label. reflexivity. }
  clearbody chart.
  split; [apply Set_spread_NoDup|].
  split.
  { intros c. unfold customers. rewrite Set_spread_elem.
    change (map customer machines) with (customer <$> machines).
    rewrite list_elem_of_fmap. split; intros (m & Hm1 & Hm2); exists m; auto. }
  split; [exact Hlabel|].
  split.
  { rewrite Hperm. apply Set_spread_NoDup. }
  split.
  { intros d. rewrite Hperm, Set_spread_elem.
    change (map dateLabel statusTrends) with (dateLabel <$> statusTrends).
    rewrite list_elem_of_fmap. split; intros (t & Ht1 & Ht2); exists t; auto. }
  split.
  { intros i ds Hds. rewrite (Hdata i ds Hds).
    apply map_ext. intros d. apply Hvalue. }
  intros Hdates i ds j t Hds Ht Hj.
  rewrite (Hdata i ds Hds).
  change (map (customerValue customers i statusTrends) (labels chart))
    with (customerValue customers i statusTrends <$> labels chart).
  rewrite list_lookup_fmap, Hj. cbn [fmap option_fmap option_map].
  f_equal. rewrite Hvalue.
  rewrite (filter_unique dateLabel statusTrends t Hdates Ht).
  unfold Zsum. simpl. lia.
Qed.

End CustomerTrendProperties.

(** * Instances of the properties on the sample data *)

Example Promise_all_first_rejection :
  Promise_all failingOutcomes = Rejected (ErrorObject "Network Error").
Proof. reflexivity. Qed.

(** A load on the sample snapshot in which the KPI call is rejected at 25
    and the hourly call at 30: the message is the one of the KPI call. *)
Lemma loadDashboardData_failure_witness :
  rejectedWith failingOutcomes (ErrorObject "timeout of 10000ms exceeded") /\
  let state' :=
    run_task (Promise_all failingOutcomes) (Fulfilled [])
      (loadDashboardData sampleDate) sampleState in
  error state' = Some "Network Error" /\
  sameData sampleState state' /\
  (exists t e',
     rejectedAt failingOutcomes t e' /\
     (forall t'' e'', rejectedAt failingOutcomes t'' e'' -> (t <= t'')%nat) /\
     match e' with
     | ErrorObject message => error state' = Some message
     | NonError => error state' = Some "Failed to load dashboard data"
     end) /\
  error state' <> None /\
  loading state' = false.
Proof.
  split; [right; right; right; reflexivity|].
  split; [reflexivity|].
  apply (loadDashboardData_failure sampleState sampleDate failingOutcomes
           (Fulfilled []) (ErrorObject "timeout of 10000ms exceeded")).
  right; right; right; reflexivity.
Defined.

(** In the sample run the search is called after the load is fulfilled, and
    falls back on the client-side filter of the machines just loaded. *)
Lemma sampleEvents_admissible : admissible initialSystem [] sampleEvents.
Proof. simpl. repeat split. Qed.

Lemma filteredMachines_subset_witness :
  exists sys,
    steps initialSystem sampleEvents = Some sys /\
    admissible initialSystem [] sampleEvents /\
    machines (store sys) = sampleMachines /\
    filteredMachines (store sys) =
      [sampleMachine "m-001" "PUMP-01" "Acme" Normal;
       sampleMachine "m-003" "pump-02" "Acme" Unacceptable] /\
    subsetById (filteredMachines (store sys)) (machines (store sys)).
Proof.
  eexists. split; [reflexivity|]. split; [exact sampleEvents_admissible|].
  split; [reflexivity|]. split; [reflexivity|].
  apply (filteredMachines_subset sampleEvents);
    [reflexivity | exact sampleEvents_admissible].
Defined.

(** The runs of the inclusion take in a search that a load overtakes, when
    the server answers it. *)
Example overtakenEvents_admissible :
  admissible initialSystem [] overtakenEvents /\
  exists sys,
    steps initialSystem overtakenEvents = Some sys /\
    filteredMachines (store sys) = [sampleMachine "m-001" "PUMP-01" "Acme" Normal].
Proof.
  split; [|eexists; split; reflexivity].
  simpl. repeat split.
  intros m Hm. apply list_elem_of_singleton in Hm. subst m.
  eexists. split; [apply list_elem_of_here | reflexivity].
Qed.

(** C3, as stated, fails: the server's result of a search is stored as
    received, here while [machines] is still empty. *)
Lemma filteredMachines_subset_counterexample :
  exists sys,
    steps initialSystem strayEvents = Some sys /\
    filteredMachines (store sys) = [sampleMachine "m-001" "PUMP-01" "Acme" Normal] /\
    machines (store sys) = [] /\
    ~ subsetById (filteredMachines (store sys)) (machines (store sys)).
Proof.
  eexists. split; [reflexivity|]. split; [reflexivity|]. split; [reflexivity|].
  intros Hsub.
  destruct (Hsub (sampleMachine "m-001" "PUMP-01" "Acme" Normal)) as (m' & Hm' & _).
  - apply list_elem_of_here.
  - inversion Hm'.
Qed.

(** The sample machines under no criteria and under the free text [pump],
    which keeps [PUMP-01] and [pump-02]. *)
Lemma clientFilteredMachines_exact_witness :
  (forall q, ~ constrains (PartialFilters.machineName noFilters) q) /\
  clientFilteredMachines sampleState noFilters = machines sampleState /\
  clientFilteredMachines sampleState pumpFilter =
    [sampleMachine "m-001" "PUMP-01" "Acme" Normal;
     sampleMachine "m-003" "pump-02" "Acme" Unacceptable] /\
  matchesIgnoringCase pumpFilter (sampleMachine "m-001" "PUMP-01" "Acme" Normal) /\
  ~ matchesIgnoringCase pumpFilter (sampleMachine "m-002" "Fan 7" "Zeta" Alert).
Proof.
  assert (Hnone : forall q, ~ constrains None q) by (intros q [Hq _]; discriminate).
  assert (Hres : clientFilteredMachines sampleState pumpFilter =
            [sampleMachine "m-001" "PUMP-01" "Acme" Normal;
             sampleMachine "m-003" "pump-02" "Acme" Unacceptable]) by reflexivity.
  split; [exact Hnone|].
  split; [apply (clientFilteredMachines_exact sampleState noFilters); exact Hnone|].
  split; [exact Hres|].
  destruct (clientFilteredMachines_exact sampleState pumpFilter)
    as (_ & _ & _ & _ & Hascii & _).
  split.
  - apply (Hascii eq_refl (sampleMachine "m-001" "PUMP-01" "Acme" Normal) eq_refl eq_refl).
    rewrite Hres. apply list_elem_of_here.
  - intros Hm.
    assert (Hin : sampleMachine "m-002" "Fan 7" "Zeta" Alert
                  ∈ clientFilteredMachines sampleState pumpFilter).
    { apply (Hascii eq_refl (sampleMachine "m-002" "Fan 7" "Zeta" Alert) eq_refl eq_refl).
      split; [|exact Hm]. apply list_elem_of_further, list_elem_of_here. }
    rewrite Hres in Hin.
    apply elem_of_cons in Hin as [Hin|Hin]; [discriminate|].
    apply list_elem_of_singleton in Hin. discriminate.
Defined.

(** Three edits, 80ms and 90ms apart: the search is called 300ms after the
    third edit, with its criteria. *)
Lemma debounce_last_edit_sample :
  changes (mounted 0) (EditTerm "p") = true /\
  burst sampleEdits (edit (EditTerm "p") (mounted 0)) /\
  calls (elapse 300 (edits sampleEdits (edit (EditTerm "p") (mounted 0)))) =
    [(470%nat,
      {| PartialFilters.customer := Some "Acme"; PartialFilters.area := Some "";
         PartialFilters.subarea := Some ""; PartialFilters.machineName := Some "pu";
         PartialFilters.status := Some "" |})].
Proof.
  assert (Hb : burst sampleEdits (edit (EditTerm "p") (mounted 0))).
  { unfold sampleEdits. cbn [burst].
    split; [lia|]. split; [vm_compute; reflexivity|].
    split; [lia|]. split; [vm_compute; reflexivity|]. exact I. }
  split; [reflexivity|]. split; [exact Hb|].
  destruct (debounce_last_edit (mounted 0) (EditTerm "p") sampleEdits eq_refl Hb)
    as (_ & _ & _ & Hfire).
  rewrite (Hfire 300%nat) by lia. vm_compute. reflexivity.
Defined.

(** When the last edit of the burst leaves every criterion empty, the timer
    fires without calling [searchMachines]: the guard of the callback. *)
Example debounce_empty_criteria :
  changes (mounted 0) (EditTerm "p") = true /\
  burst emptyingEdits (edit (EditTerm "p") (mounted 0)) /\
  calls (elapse 300 (edits emptyingEdits (edit (EditTerm "p") (mounted 0)))) = [] /\
  calls (elapse 1000 (edits emptyingEdits (edit (EditTerm "p") (mounted 0)))) = [].
Proof.
  split; [reflexivity|].
  split; [unfold emptyingEdits; cbn [burst]; split; [lia|]; split; [vm_compute; reflexivity | exact I]|].
  split; vm_compute; reflexivity.
Qed.

(** Three edits, 80ms and 90ms apart, then 600ms without any edit: the
    search is called at 470, 300ms after the third edit, and again at 770. *)
Lemma debounce_searches_again_witness :
  changes (mounted 0) (EditTerm "p") = true /\
  burst sampleEdits (edit (EditTerm "p") (mounted 0)) /\
  criteriaSet (edits sampleEdits (edit (EditTerm "p") (mounted 0))) = true /\
  calls (elapse 600 (edits sampleEdits (edit (EditTerm "p") (mounted 0)))) =
    [(470%nat,
      {| PartialFilters.customer := Some "Acme"; PartialFilters.area := Some "";
         PartialFilters.subarea := Some ""; PartialFilters.machineName := Some "pu";
         PartialFilters.status := Some "" |});
     (770%nat,
      {| PartialFilters.customer := Some "Acme"; PartialFilters.area := Some "";
         PartialFilters.subarea := Some ""; PartialFilters.machineName := Some "pu";
         PartialFilters.status := Some "" |})] /\
  length (calls (elapse 600 (edits sampleEdits (edit (EditTerm "p") (mounted 0)))))
    <> 1%nat.
Proof.
  assert (Hb : burst sampleEdits (edit (EditTerm "p") (mounted 0))).
  { unfold sampleEdits. cbn [burst].
    split; [lia|]. split; [vm_compute; reflexivity|].
    split; [lia|]. split; [vm_compute; reflexivity|]. exact I. }
  assert (Hs : criteriaSet (edits sampleEdits (edit (EditTerm "p") (mounted 0))) = true)
    by (vm_compute; reflexivity).
  split; [reflexivity|]. split; [exact Hb|]. split; [exact Hs|].
  destruct (debounce_searches_again (mounted 0) (EditTerm "p") sampleEdits eq_refl Hb Hs)
    as (_ & _ & _ & H600 & _).
  rewrite H600. split; [vm_compute; reflexivity | vm_compute; discriminate].
Defined.

(** The two sample points. *)
Lemma HourlyTrendChart_ordered_witness :
  sampleHourlyTrends <> [] /\
  exists sortedTrends,
    sortedTrends ≡ₚ sampleHourlyTrends /\
    StronglySorted (fun a b => hour a <= hour b) sortedTrends /\
    (forall h, filter (fun t => hour t = h) sortedTrends =
               filter (fun t => hour t = h) sampleHourlyTrends) /\
    labels (HourlyTrendChart_chartData sampleHourlyTrends ViewMachines) =
      map (fun t => timeString (hour t)) sortedTrends /\
    map data (datasets (HourlyTrendChart_chartData sampleHourlyTrends ViewMachines)) =
      [map count sortedTrends].
Proof.
  split; [discriminate|].
  apply (HourlyTrendChart_ordered sampleHourlyTrends ViewMachines). discriminate.
Defined.

Example CustomerTrendChart_sample :
  CustomerTrendChart_chartData sampleStatusTrends sampleMachines =
  {| labels := ["Jan 02"; "Jan 03"];
     datasets := [{| label := "Acme"; data := [5; 5] |};
                  {| label := "Zeta"; data := [8; 8] |}] |}.
Proof. vm_compute. reflexivity. Qed.

(** The sample trends for the two customers of the sample machines: with
    two customers, the counts 2, 0, 1, 5 of the second of January give
    1 + 0 + 1 + 3 for the first customer and 2 + 0 + 1 + 5 for the second. *)
Lemma CustomerTrendChart_shares_witness :
  sampleStatusTrends <> [] /\
  CustomerTrendChart_chartData sampleStatusTrends sampleMachines =
    {| labels := ["Jan 02"; "Jan 03"];
       datasets := [{| label := "Acme"; data := [5; 5] |};
                    {| label := "Zeta"; data := [8; 8] |}] |} /\
  map label (datasets (CustomerTrendChart_chartData sampleStatusTrends sampleMachines)) =
    Set_spread (map customer sampleMachines) /\
  forall ds,
    datasets (CustomerTrendChart_chartData sampleStatusTrends sampleMachines) !! 1%nat
      = Some ds ->
    data ds !! 0%nat =
    Some (Math_round (Number_mul (Number_div (Number_of_Z 2) (Number_of_Z 2))
                                 (Number_of_Z (1 + 1))) +
          Math_round (Number_mul (Number_div (Number_of_Z 0) (Number_of_Z 2))
                                 (Number_of_Z (1 + 1))) +
          Math_round (Number_mul (Number_div (Number_of_Z 1) (Number_of_Z 2))
                                 (Number_of_Z (1 + 1))) +
          Math_round (Number_mul (Number_div (Number_of_Z 5) (Number_of_Z 2))
                                 (Number_of_Z (1 + 1)))).
Proof.
  assert (Hne : sampleStatusTrends <> []) by discriminate.
  assert (Hdates : NoDup (map dateLabel sampleStatusTrends)).
  { apply (bool_decide_unpack _). vm_compute. reflexivity. }
  split; [exact Hne|].
  split; [vm_compute; reflexivity|].
  pose proof (CustomerTrendChart_shares sampleStatusTrends sampleMachines Hne) as Hc.
  cbv zeta in Hc.
  destruct Hc as (_ & _ & Hlabel & _ & _ & _ & Hone).
  split; [exact Hlabel|].
  intros ds Hds.
  apply (Hone Hdates 1%nat ds 0%nat
           {| date := "2025-01-02";
              status_counts :=
                {| cNormal := 2; cSatisfactory := 0; cAlert := 1; cUnacceptable := 5 |} |}
           Hds).
  - apply list_elem_of_further, list_elem_of_here.
  - vm_compute. reflexivity.
Defined.

(** * Further properties of the sources *)

(** ** Fetch and search cycles *)

Section CycleProperties.
Context `{DateFns} `{JsString}.

Lemma Promise_all_fulfilled o ms k st ht :
  snd (getAllMachines o) = Fulfilled ms ->
  snd (getKPIs o) = Fulfilled k ->
  snd (getStatusTrends o) = Fulfilled st ->
  snd (getHourlyTrends o) = Fulfilled ht ->
  Promise_all o = Fulfilled (ms, k, st, ht).
Proof.
  destruct o as [[t1 r1] [t2 r2] [t3 r3] [t4 r4]]. simpl.
  intros -> -> -> ->. reflexivity.
Qed.

(** X1. When the four calls of a load are fulfilled, the snapshot holds their
    values, [filteredMachines] is the whole of the new [machines], [error]
    is cleared and [loading] is false, while [searchFilters] and
    [selectedDate] are as before: the filters stay set though the list is
    no longer filtered. *)
Theorem loadDashboardData_success (state : DashboardState) (date : Date)
    (o : GatewayOutcomes) (search : Settled (list Machine))
    ms k st ht :
  snd (getAllMachines o) = Fulfilled ms ->
  snd (getKPIs o) = Fulfilled k ->
  snd (getStatusTrends o) = Fulfilled st ->
  snd (getHourlyTrends o) = Fulfilled ht ->
  let state' := run_task (Promise_all o) search (loadDashboardData date) state in
  machines state' = ms /\
  filteredMachines state' = ms /\
  kpiStats state' = Some k /\
  statusTrends state' = st /\
  hourlyTrends state' = ht /\
  loading state' = false /\
  error state' = None /\
  searchFilters state' = searchFilters state /\
  selectedDate state' = selectedDate state.
Proof.
  intros H1 H2 H3 H4.
  simpl. rewrite (Promise_all_fulfilled o ms k st ht H1 H2 H3 H4). simpl.
  repeat split; reflexivity.
Qed.

(** X2. A search cycle, however its server call settles: the criteria of the
    call are merged into [searchFilters], [filteredMachines] is the
    server's result as received or the fallback filter, [loading] ends
    false, and [error], [machines], the KPIs, the trends and the selected
    date are left as they were; an error shown before the search is still
    there after it. *)
Theorem searchMachines_cycle (captured state : DashboardState)
    (filters : PartialFilters.t) (all : Settled LoadPayload)
    (outcome : Settled (list Machine)) :
  let state' := run_task all outcome (searchMachines captured filters) state in
  searchFilters state' = mergeFilters (searchFilters state) filters /\
  filteredMachines state' =
    match outcome with
    | Fulfilled result => result
    | Rejected _ => clientFilteredMachines captured filters
    end /\
  loading state' = false /\
  error state' = error state /\
  machines state' = machines state /\
  kpiStats state' = kpiStats state /\
  statusTrends state' = statusTrends state /\
  hourlyTrends state' = hourlyTrends state /\
  selectedDate state' = selectedDate state.
Proof. destruct outcome; simpl; repeat split; reflexivity. Qed.

(** X3. [setSelectedDate] stores the date before the load: when a call of the
    load is rejected, the snapshot has the new date and the data of the
    month shown before. *)
Theorem setSelectedDate_failure (state : DashboardState) (date : Date)
    (o : GatewayOutcomes) (search : Settled (list Machine)) (e : Thrown) :
  rejectedWith o e ->
  let state' := run_task (Promise_all o) search (setSelectedDate date) state in
  selectedDate state' = date /\
  sameData state state' /\
  error state' <> None /\
  loading state' = false /\
  gateway_calls (Promise_all o) search (setSelectedDate date) =
    [CallAll (format_startOfMonth date) (format_endOfMonth date)].
Proof.
  intros Hrej.
  destruct (Promise_all_rejected o e Hrej) as (e' & Hall & He').
  simpl. rewrite Hall. simpl. unfold sameData. simpl.
  repeat split; try reflexivity. discriminate.
Qed.

(** X4. Two date changes whose loads overlap: when the load of the first date
    settles last, the snapshot ends with the second date selected and the
    data of the first. *)
Theorem late_load_overwrites (state : DashboardState) (date1 date2 : Date)
    ms1 k1 st1 ht1 ms2 k2 st2 ht2 :
  exists sys,
    steps {| store := state; inflight := [] |}
      [Call_setSelectedDate date1;
       Call_setSelectedDate date2;
       Settle_all 1 (Fulfilled (ms2, k2, st2, ht2));
       Settle_all 0 (Fulfilled (ms1, k1, st1, ht1))] = Some sys /\
    inflight sys = [] /\
    selectedDate (store sys) = date2 /\
    machines (store sys) = ms1 /\
    filteredMachines (store sys) = ms1 /\
    kpiStats (store sys) = Some k1 /\
    statusTrends (store sys) = st1 /\
    hourlyTrends (store sys) = ht1.
Proof. eexists. repeat split; reflexivity. Qed.

(** X5. A search closes over the snapshot of its call: when a load replaces
    [machines] while the search is pending and the server call then fails,
    the fallback filters the machines of before the load. *)
Theorem fallback_filters_captured_machines (state : DashboardState)
    (filters : PartialFilters.t) (date : Date) ms k st ht (e : Thrown) :
  exists sys,
    steps {| store := state; inflight := [] |}
      [Call_searchMachines filters;
       Call_loadDashboardData date;
       Settle_all 1 (Fulfilled (ms, k, st, ht));
       Settle_search 0 (Rejected e)] = Some sys /\
    inflight sys = [] /\
    machines (store sys) = ms /\
    filteredMachines (store sys) = List.filter (matchesFilters filters) (machines state).
Proof. eexists. repeat split; reflexivity. Qed.

(** X6. A status criterion is compared as written: one that is not the name of
    a status, such as a name in lower case, leaves no machine. *)
Theorem status_criterion_exact (state : DashboardState) (filters : PartialFilters.t)
    (q : string) :
  PartialFilters.status filters = Some q ->
  q <> "" ->
  (forall s, Status_string s <> q) ->
  clientFilteredMachines state filters = [].
Proof.
  intros Hq Hne Hnames. unfold clientFilteredMachines.
  induction (machines state) as [|m l IH]; [reflexivity|].
  simpl. rewrite IH.
  destruct (matchesFilters filters m) eqn:E; [|reflexivity].
  exfalso. apply matchesFilters_spec in E.
  destruct E as (_ & _ & _ & _ & Hs).
  apply (Hnames (status m)), Hs. split; assumption.
Qed.

End CycleProperties.

(** ** The parameters of a search request *)

Lemma entry_elem (o : option string) (key k v : string) :
  (k, v) ∈ (if not_ o then [] else [(key, str o)]) <-> k = key /\ constrains o v.
Proof.
  unfold constrains. destruct o as [[|c s]|]; simpl.
  - rewrite elem_of_nil. split; [tauto | intros (_ & Hq & Hn); congruence].
  - rewrite list_elem_of_singleton. split.
    + intros Heq. injection Heq as -> ->. repeat split. discriminate.
    + intros (-> & Hq & _). congruence.
  - rewrite elem_of_nil. split; [tauto | intros (_ & Hq & _); discriminate].
Qed.

Lemma searchParams_unfold filters :
  searchParams filters =
  (if not_ (PartialFilters.customer filters) then []
   else [("customer", str (PartialFilters.customer filters))]) ++
  (if not_ (PartialFilters.area filters) then []
   else [("area", str (PartialFilters.area filters))]) ++
  (if not_ (PartialFilters.subarea filters) then []
   else [("subarea", str (PartialFilters.subarea filters))]) ++
  (if not_ (PartialFilters.machineName filters) then []
   else [("machine_name", str (PartialFilters.machineName filters))]) ++
  (if not_ (PartialFilters.status filters) then []
   else [("status", str (PartialFilters.status filters))]).
Proof. reflexivity. Qed.

Lemma searchParams_elem filters k v :
  (k, v) ∈ searchParams filters <->
  (k = "customer" /\ constrains (PartialFilters.customer filters) v) \/
  (k = "area" /\ constrains (PartialFilters.area filters) v) \/
  (k = "subarea" /\ constrains (PartialFilters.subarea filters) v) \/
  (k = "machine_name" /\ constrains (PartialFilters.machineName filters) v) \/
  (k = "status" /\ constrains (PartialFilters.status filters) v).
Proof.
  rewrite searchParams_unfold, !elem_of_app, !entry_elem. reflexivity.
Qed.

(** X7. The request of a search carries one parameter for each criterion that
    is present and not empty, with its value, and nothing for the others;
    the free text goes under [machine_name]. The keys are distinct, no
    value is empty, and the filter of the API client keeps them all. *)
Theorem searchParams_sent (filters : PartialFilters.t) :
  (forall v, ("customer", v) ∈ searchParams filters <->
             constrains (PartialFilters.customer filters) v) /\
  (forall v, ("area", v) ∈ searchParams filters <->
             constrains (PartialFilters.area filters) v) /\
  (forall v, ("subarea", v) ∈ searchParams filters <->
             constrains (PartialFilters.subarea filters) v) /\
  (forall v, ("machine_name", v) ∈ searchParams filters <->
             constrains (PartialFilters.machineName filters) v) /\
  (forall v, ("status", v) ∈ searchParams filters <->
             constrains (PartialFilters.status filters) v) /\
  (forall k v, (k, v) ∈ searchParams filters ->
     v <> "" /\ k ∈ ["customer"; "area"; "subarea"; "machine_name"; "status"]) /\
  NoDup (map fst (searchParams filters)) /\
  (forall dates, searchMachines_query (searchParams filters ++ dates) =
                 searchParams filters ++ searchMachines_query dates).
Proof.
  repeat match goal with |- _ /\ _ => split end.
  - intros v. rewrite searchParams_elem.
    split; [intros [[_ ?]|[[? _]|[[? _]|[[? _]|[? _]]]]]; try discriminate; assumption | tauto].
  - intros v. rewrite searchParams_elem.
    split; [intros [[? _]|[[_ ?]|[[? _]|[[? _]|[? _]]]]]; try discriminate; assumption | tauto].
  - intros v. rewrite searchParams_elem.
    split; [intros [[? _]|[[? _]|[[_ ?]|[[? _]|[? _]]]]]; try discriminate; assumption | tauto].
  - intros v. rewrite searchParams_elem.
    split; [intros [[? _]|[[? _]|[[? _]|[[_ ?]|[? _]]]]]; try discriminate; assumption | tauto].
  - intros v. rewrite searchParams_elem.
    split; [intros [[? _]|[[? _]|[[? _]|[[? _]|[_ ?]]]]]; try discriminate; assumption | tauto].
  - intros k v Hin. apply searchParams_elem in Hin.
    destruct Hin as [[-> [_ Hv]]|[[-> [_ Hv]]|[[-> [_ Hv]]|[[-> [_ Hv]]|[-> [_ Hv]]]]]];
      (split; [exact Hv|]); rewrite !elem_of_cons; tauto.
  - rewrite searchParams_unfold.
    destruct (not_ (PartialFilters.customer filters)),
             (not_ (PartialFilters.area filters)),
             (not_ (PartialFilters.subarea filters)),
             (not_ (PartialFilters.machineName filters)),
             (not_ (PartialFilters.status filters)); simpl;
      repeat (apply NoDup_cons_2;
              [rewrite ?elem_of_cons, elem_of_nil; intuition discriminate|]);
      apply NoDup_nil_2.
  - intros dates. unfold searchMachines_query.
    rewrite List.filter_app. f_equal.
    apply forallb_filter_id, forallb_forall. intros [k v] Hin.
    apply list_elem_of_In, searchParams_elem in Hin.
    assert (Hv : v <> "") by (destruct Hin as [[_ [_ ?]]|[[_ [_ ?]]|[[_ [_ ?]]|[[_ [_ ?]]|[_ [_ ?]]]]]]; assumption).
    destruct v; [contradiction | reflexivity].
Qed.

(** ** [KPICards] *)

#[export] Instance Status_eq_dec : EqDecision Status.
Proof. solve_decision. Defined.

Lemma Status_string_inj s1 s2 : Status_string s1 = Status_string s2 -> s1 = s2.
Proof. destruct s1, s2; simpl; intros Heq; try reflexivity; discriminate. Qed.

Lemma statusCounts_fold (ms : list Machine) : forall (acc : gmap string Z) s,
  default 0
    (foldl (fun acc machine =>
              <[Status_string (status machine) :=
                  default 0 (acc !! Status_string (status machine)) + 1]> acc)
       acc ms !! Status_string s) =
  default 0 (acc !! Status_string s) +
  Z.of_nat (length (filter (fun m => status m = s) ms)).
Proof.
  induction ms as [|m ms IH]; intros acc s; cbn [foldl].
  - rewrite filter_nil. simpl. lia.
  - rewrite IH, filter_cons. destruct (decide (status m = s)) as [<-|Hne].
    + rewrite lookup_insert_eq. cbn [default length]. unfold id. lia.
    + rewrite lookup_insert_ne; [reflexivity|].
      intros Heq. apply Hne, Status_string_inj, Heq.
Qed.

Lemma length_by_status (ms : list Machine) :
  Z.of_nat (length ms) =
  Z.of_nat (length (filter (fun m => status m = Normal) ms)) +
  Z.of_nat (length (filter (fun m => status m = Satisfactory) ms)) +
  Z.of_nat (length (filter (fun m => status m = Alert) ms)) +
  Z.of_nat (length (filter (fun m => status m = Unacceptable) ms)).
Proof.
  induction ms as [|m ms IH]; [reflexivity|].
  rewrite !filter_cons.
  destruct (status m); repeat case_decide; try congruence; cbn [length]; lia.
Qed.

(** X8. The count shown for a status is the number of filtered machines of
    that status, 0 when there is none, and the four counts add up to the
    total shown. *)
Theorem KPICards_counts (filteredMachines : list Machine) :
  (forall s, KPICards_count filteredMachines s =
             Z.of_nat (length (filter (fun m => status m = s) filteredMachines))) /\
  KPICards_count filteredMachines Normal +
  KPICards_count filteredMachines Satisfactory +
  KPICards_count filteredMachines Alert +
  KPICards_count filteredMachines Unacceptable = totalMachines filteredMachines.
Proof.
  assert (Hc : forall s, KPICards_count filteredMachines s =
    Z.of_nat (length (filter (fun m => status m = s) filteredMachines))).
  { intros s. unfold KPICards_count, statusCounts.
    rewrite statusCounts_fold, lookup_empty. reflexivity. }
  split; [exact Hc|].
  rewrite !Hc. unfold totalMachines. symmetry. apply length_by_status.
Qed.

(** ** [StatusTrendChart] *)

Lemma Map_get_absent {V} (m : list (string * V)) k :
  k ∉ m.*1 -> Map_get m k = None.
Proof.
  induction m as [|[k0 v0] m IH]; intros Hk; [reflexivity|].
  rewrite fmap_cons in Hk. apply not_elem_of_cons in Hk as [Hne Hk].
  simpl. destruct (String.eqb k0 k) eqn:E.
  - apply String.eqb_eq in E. simpl in Hne. congruence.
  - apply IH, Hk.
Qed.

Lemma Map_set_absent {V} (m : list (string * V)) k v :
  k ∉ m.*1 -> Map_set m k v = m ++ [(k, v)].
Proof.
  induction m as [|[k0 v0] m IH]; intros Hk; [reflexivity|].
  rewrite fmap_cons in Hk. apply not_elem_of_cons in Hk as [Hne Hk].
  simpl. destruct (String.eqb k0 k) eqn:E.
  - apply String.eqb_eq in E. simpl in Hne. congruence.
  - rewrite IH by exact Hk. reflexivity.
Qed.

Lemma Map_get_snoc {V} (m : list (string * V)) k v :
  k ∉ m.*1 -> Map_get (m ++ [(k, v)]) k = Some v.
Proof.
  induction m as [|[k0 v0] m IH]; intros Hk.
  - simpl. rewrite String.eqb_refl. reflexivity.
  - rewrite fmap_cons in Hk. apply not_elem_of_cons in Hk as [Hne Hk].
    simpl. destruct (String.eqb k0 k) eqn:E.
    + apply String.eqb_eq in E. simpl in Hne. congruence.
    + apply IH, Hk.
Qed.

Lemma Map_set_snoc {V} (m : list (string * V)) k v v' :
  k ∉ m.*1 -> Map_set (m ++ [(k, v)]) k v' = m ++ [(k, v')].
Proof.
  induction m as [|[k0 v0] m IH]; intros Hk.
  - simpl. rewrite String.eqb_refl. reflexivity.
  - rewrite fmap_cons in Hk. apply not_elem_of_cons in Hk as [Hne Hk].
    simpl. destruct (String.eqb k0 k) eqn:E.
    + apply String.eqb_eq in E. simpl in Hne. congruence.
    + rewrite IH by exact Hk. reflexivity.
Qed.

Lemma Map_has_elem {V} (m : list (string * V)) k :
  Map_has m k = true <-> k ∈ m.*1.
Proof.
  unfold Map_has. induction m as [|[k0 v0] m IH]; simpl.
  - rewrite elem_of_nil. split; [discriminate | tauto].
  - rewrite elem_of_cons. simpl. destruct (String.eqb k0 k) eqn:E.
    + apply String.eqb_eq in E. split; [intros _; left; congruence | reflexivity].
    + apply String.eqb_neq in E. rewrite IH. split; [tauto|].
      intros [Heq|Hin]; [congruence | exact Hin].
Qed.

Lemma Map_set_keys_present {V} (m : list (string * V)) k v :
  k ∈ m.*1 -> (Map_set m k v).*1 = m.*1.
Proof.
  induction m as [|[k0 v0] m IH]; intros Hk; [inversion Hk|].
  simpl. destruct (String.eqb k0 k) eqn:E; [reflexivity|].
  apply String.eqb_neq in E. rewrite fmap_cons in Hk.
  apply elem_of_cons in Hk as [Heq|Hk]; [simpl in Heq; congruence|].
  rewrite !fmap_cons, IH by exact Hk. reflexivity.
Qed.

Lemma append_prefix_inj p a b : p +:+ a = p +:+ b -> a = b.
Proof.
  induction p as [|c p IH]; simpl; intros Heq; [exact Heq|].
  injection Heq as Heq. apply IH, Heq.
Qed.

Lemma addCounts_zero counts :
  addCounts {| cNormal := 0; cSatisfactory := 0; cAlert := 0; cUnacceptable := 0 |} counts
  = counts.
Proof. destruct counts; reflexivity. Qed.

Lemma monthly_values s (l : list StatusTrend) :
  map (fun item => default 0 (item_get item s)) (map TrendObject l) =
  replicate (length l) 0.
Proof. induction l as [|t l IH]; simpl; [reflexivity | rewrite IH; reflexivity]. Qed.

Section StatusTrendProperties.
Context `{DateFns}.

Lemma addWeek_keys weeklyData trend :
  (addWeek weeklyData trend).*1 =
  Set_add (weeklyData.*1) (weekKey trend).
Proof.
  unfold addWeek, Set_add, weekKey, dateLabel.
  set (key := "Week of " +:+ format_MMM_dd (date trend)).
  destruct (Map_has weeklyData key) eqn:Hhas.
  - apply Map_has_elem in Hhas.
    rewrite bool_decide_eq_true_2 by exact Hhas.
    apply Map_set_keys_present, Hhas.
  - assert (Hk : key ∉ weeklyData.*1).
    { intros Hin. apply Map_has_elem in Hin. congruence. }
    rewrite bool_decide_eq_false_2 by exact Hk.
    rewrite (Map_set_absent weeklyData key _ Hk), Map_set_snoc by exact Hk.
    rewrite fmap_app. reflexivity.
Qed.

Lemma foldl_addWeek_keys trends : forall weeklyData,
  (foldl addWeek weeklyData trends).*1 =
  foldl Set_add (weeklyData.*1) (map weekKey trends).
Proof.
  induction trends as [|t ts IH]; intros wd; [reflexivity|].
  cbn [foldl map]. rewrite IH, addWeek_keys. reflexivity.
Qed.

Lemma addWeek_new weeklyData trend :
  weekKey trend ∉ weeklyData.*1 ->
  addWeek weeklyData trend = weeklyData ++ [(weekKey trend, status_counts trend)].
Proof.
  intros Hk. unfold addWeek. fold (dateLabel trend). fold (weekKey trend).
  destruct (Map_has weeklyData (weekKey trend)) eqn:Hhas.
  - apply Map_has_elem in Hhas. contradiction.
  - rewrite (Map_set_absent weeklyData _ _ Hk), Map_get_snoc by exact Hk.
    cbn [default]. rewrite addCounts_zero. apply Map_set_snoc, Hk.
Qed.

Lemma foldl_addWeek_distinct trends : forall weeklyData,
  NoDup (weekKey <$> trends) ->
  (forall t, t ∈ trends -> weekKey t ∉ weeklyData.*1) ->
  foldl addWeek weeklyData trends =
  weeklyData ++ map (fun t => (weekKey t, status_counts t)) trends.
Proof.
  induction trends as [|t ts IH]; intros wd Hnd Hfresh.
  - simpl. rewrite app_nil_r. reflexivity.
  - rewrite fmap_cons in Hnd. apply NoDup_cons in Hnd as [Ht Hnd].
    cbn [foldl map].
    rewrite addWeek_new by (apply Hfresh, list_elem_of_here).
    rewrite IH; [rewrite <- app_assoc; reflexivity | exact Hnd |].
    intros t' Ht'. rewrite fmap_app, elem_of_app. intros [Hin|Hin].
    + apply (Hfresh t'); [apply list_elem_of_further, Ht' | exact Hin].
    + simpl in Hin. apply list_elem_of_singleton in Hin.
      apply Ht. rewrite <- Hin. apply list_elem_of_fmap_2, Ht'.
Qed.

Lemma StatusTrendChart_nonempty statusTrends viewMode :
  statusTrends <> [] ->
  StatusTrendChart_chartData statusTrends viewMode =
  let sortedTrends :=
    Array_sort (fun a b => Date_getTime (date a) - Date_getTime (date b)) statusTrends in
  let data :=
    match viewMode with
    | ViewMonthly => map TrendObject sortedTrends
    | ViewWeekly =>
        map (fun entry => WeekObject (snd entry)) (foldl addWeek [] sortedTrends)
    end in
  {| labels :=
       match viewMode with
       | ViewMonthly => map (fun trend => format_MMM_dd (date trend)) sortedTrends
       | ViewWeekly => map fst (foldl addWeek [] sortedTrends)
       end;
     datasets :=
       map (fun status =>
              {| label := Status_string status;
                 data := map (fun item => default 0 (item_get item status)) data |})
           [Normal; Satisfactory; Alert; Unacceptable] |}.
Proof. destruct statusTrends; [contradiction|]. destruct viewMode; reflexivity. Qed.

(** X9. In the monthly view the labels are the dates of the trends in
    chronological order and there is one dataset per status, in the order
    Normal, Satisfactory, Alert, Unacceptable; every value of every dataset
    is 0, whatever the counts: the values are read as [item[status]] on the
    trend objects, which keep their counts under [status_counts]. *)
Theorem StatusTrendChart_monthly (statusTrends : list StatusTrend) :
  statusTrends <> [] ->
  let chart := StatusTrendChart_chartData statusTrends ViewMonthly in
  (exists sortedTrends,
     sortedTrends ≡ₚ statusTrends /\
     StronglySorted (fun a b => Date_getTime (date a) <= Date_getTime (date b))
       sortedTrends /\
     labels chart = map dateLabel sortedTrends) /\
  map label (datasets chart) = ["Normal"; "Satisfactory"; "Alert"; "Unacceptable"] /\
  (forall ds, ds ∈ datasets chart -> data ds = replicate (length statusTrends) 0).
Proof.
  intros Hne chart. subst chart.
  rewrite (StatusTrendChart_nonempty _ _ Hne). cbn zeta. cbn [labels datasets].
  pose proof (Array_sort_Permutation (fun t => Date_getTime (date t)) statusTrends)
    as Hperm.
  cbn beta in Hperm.
  split; [|split].
  - eexists. split; [exact Hperm|]. split; [|reflexivity].
    apply (Array_sort_sorted (fun t => Date_getTime (date t))).
  - reflexivity.
  - intros ds Hds. rewrite <- (Permutation_length Hperm).
    cbn [map] in Hds.
    repeat (apply elem_of_cons in Hds as [->|Hds]; [apply monthly_values|]).
    inversion Hds.
Qed.

(** X10. In the weekly view a trend is filed under the key made of [Week of]
    and its own date label: the labels are the distinct keys in
    chronological order of first occurrence, and when no two trends share
    a date there is one bucket per trend, holding the counts of that day;
    days are not merged into weeks. *)
Theorem StatusTrendChart_weekly (statusTrends : list StatusTrend) :
  statusTrends <> [] ->
  let chart := StatusTrendChart_chartData statusTrends ViewWeekly in
  exists sortedTrends,
    sortedTrends ≡ₚ statusTrends /\
    StronglySorted (fun a b => Date_getTime (date a) <= Date_getTime (date b))
      sortedTrends /\
    labels chart = Set_spread (map weekKey sortedTrends) /\
    (NoDup (map dateLabel statusTrends) ->
     labels chart = map weekKey sortedTrends /\
     length (labels chart) = length statusTrends /\
     datasets chart =
       map (fun s => {| label := Status_string s;
                        data := map (fun t => countOf (status_counts t) s) sortedTrends |})
           [Normal; Satisfactory; Alert; Unacceptable]).
Proof.
  intros Hne chart. subst chart.
  rewrite (StatusTrendChart_nonempty _ _ Hne). cbn zeta. cbn [labels datasets].
  pose proof (Array_sort_Permutation (fun t => Date_getTime (date t)) statusTrends)
    as Hperm.
  cbn beta in Hperm.
  set (sortedTrends :=
         Array_sort (fun a b => Date_getTime (date a) - Date_getTime (date b))
           statusTrends) in *.
  exists sortedTrends. split; [exact Hperm|].
  split; [apply (Array_sort_sorted (fun t => Date_getTime (date t)))|].
  split; [apply (foldl_addWeek_keys sortedTrends [])|].
  intros Hnd.
  assert (Hkeys : NoDup (weekKey <$> sortedTrends)).
  { rewrite Hperm.
    change (map dateLabel statusTrends) with (dateLabel <$> statusTrends) in Hnd.
    replace (weekKey <$> statusTrends)
      with ((fun d => "Week of " +:+ d) <$> (dateLabel <$> statusTrends))
      by (rewrite <- list_fmap_compose; reflexivity).
    apply NoDup_fmap_2; [|exact Hnd].
    intros a b Hab. apply append_prefix_inj in Hab. exact Hab. }
  rewrite (foldl_addWeek_distinct sortedTrends [] Hkeys)
    by (intros t _ Hin; inversion Hin).
  cbn [app].
  split; [|split].
  - rewrite map_map. reflexivity.
  - rewrite !length_map. apply Permutation_length, Hperm.
  - cbn [map]. rewrite !map_map. reflexivity.
Qed.

End StatusTrendProperties.

(** ** [HourlyTrendChart] and [CustomerTrendChart], further *)

Lemma sorted_perm_unique {A} (key : A -> Z) (l1 : list A) : forall l2,
  StronglySorted (fun a b => key a <= key b) l1 ->
  StronglySorted (fun a b => key a <= key b) l2 ->
  l1 ≡ₚ l2 ->
  NoDup (key <$> l1) ->
  l1 = l2.
Proof.
  induction l1 as [|x l1 IH]; intros l2 Hs1 Hs2 Hperm Hnd.
  - apply Permutation_nil in Hperm. congruence.
  - destruct l2 as [|y l2].
    { symmetry in Hperm. apply Permutation_nil in Hperm. discriminate. }
    apply StronglySorted_inv in Hs1 as [Hs1 Hx].
    apply StronglySorted_inv in Hs2 as [Hs2 Hy].
    rewrite fmap_cons in Hnd. apply NoDup_cons in Hnd as [Hkx Hnd].
    assert (Hyin : y ∈ x :: l1) by (rewrite Hperm; apply list_elem_of_here).
    assert (Hxin : x ∈ y :: l2) by (rewrite <- Hperm; apply list_elem_of_here).
    assert (Hxy : x = y).
    { apply elem_of_cons in Hyin as [Heq|Hyin]; [congruence|].
      apply elem_of_cons in Hxin as [Heq|Hxin]; [exact Heq|].
      exfalso. apply Hkx.
      rewrite Forall_forall in Hx, Hy.
      assert (key x = key y).
      { apply Z.le_antisymm;
          [apply Hx, Hyin | apply Hy, Hxin]. }
      replace (key x) with (key y) by congruence.
      apply list_elem_of_fmap_2, Hyin. }
    subst y. f_equal.
    apply IH; try assumption. eapply Permutation_cons_inv, Hperm.
Qed.

Lemma HourlyTrendChart_nonempty hourlyTrends viewMode :
  hourlyTrends <> [] ->
  HourlyTrendChart_chartData hourlyTrends viewMode =
  let sortedTrends := Array_sort (fun a b => hour a - hour b) hourlyTrends in
  {| labels := map (fun trend => timeString (hour trend)) sortedTrends;
     datasets :=
       [{| label := match viewMode with
                    | ViewMachines => "Machine Readings"
                    | ViewComponents => "Component Readings"
                    end;
           data := map (fun trend => count trend) sortedTrends |}] |}.
Proof. destruct hourlyTrends; [contradiction | reflexivity]. Qed.

(** X11. When no hour occurs twice, the hourly chart does not depend on the
    order in which the points are received. *)
Theorem HourlyTrendChart_order_independent (hourlyTrends hourlyTrends' : list HourlyTrend)
    (viewMode : HourlyViewMode) :
  hourlyTrends ≡ₚ hourlyTrends' ->
  NoDup (map hour hourlyTrends) ->
  HourlyTrendChart_chartData hourlyTrends viewMode =
  HourlyTrendChart_chartData hourlyTrends' viewMode.
Proof.
  intros Hperm Hnd.
  destruct hourlyTrends as [|t ts].
  { apply Permutation_nil in Hperm. subst. reflexivity. }
  assert (Hne' : hourlyTrends' <> []).
  { intros ->. symmetry in Hperm. apply Permutation_nil in Hperm. discriminate. }
  rewrite !HourlyTrendChart_nonempty by (assumption || discriminate).
  cbn zeta.
  rewrite (sorted_perm_unique hour
             (Array_sort (fun a b => hour a - hour b) (t :: ts))
             (Array_sort (fun a b => hour a - hour b) hourlyTrends')); [reflexivity | | | |].
  - apply (Array_sort_sorted hour).
  - apply (Array_sort_sorted hour).
  - rewrite !(Array_sort_Permutation hour). exact Hperm.
  - rewrite (Array_sort_Permutation hour). exact Hnd.
Qed.

Section CustomerTrendShape.
Context `{DateFns} `{JsNumber}.

(** X12. For a series that is not empty the customer chart has labels, one
    dataset per distinct customer and, in each dataset, one value per
    label; with no machine it has labels and no dataset. *)
Theorem CustomerTrendChart_shape (statusTrends : list StatusTrend)
    (machines : list Machine) :
  statusTrends <> [] ->
  let chart := CustomerTrendChart_chartData statusTrends machines in
  labels chart <> [] /\
  length (datasets chart) = length (Set_spread (map customer machines)) /\
  (forall ds, ds ∈ datasets chart -> length (data ds) = length (labels chart)) /\
  (machines = [] -> datasets chart = []).
Proof.
  intros Hne chart. subst chart.
  rewrite (chartData_nonempty _ _ Hne). cbn zeta. cbn [labels datasets].
  split; [|split; [|split]].
  - intros Hnil.
    destruct statusTrends as [|t ts]; [contradiction|].
    assert (Hin : dateLabel t ∈
      Array_sort (fun a b => Date_getTime a - Date_getTime b)
        (Set_spread (map (fun trend => format_MMM_dd (date trend)) (t :: ts)))).
    { rewrite (Array_sort_Permutation Date_getTime), Set_spread_elem.
      apply list_elem_of_here. }
    rewrite Hnil in Hin. inversion Hin.
  - apply length_imap.
  - intros ds Hds. apply elem_of_lookup_imap in Hds as (i & c & -> & _).
    cbn [data]. apply length_map.
  - intros ->. reflexivity.
Qed.

End CustomerTrendShape.

(** ** The debounce of [SearchFilters], further *)

Section DebounceFurther.

(** A timer armed with no criterion fires without calling: nothing is
    called afterwards, however long the component is left alone. *)
Lemma armed_empty_never_calls c q :
  armed c ->
  anyCriteria (searchTerm c) (localFilters c) = false ->
  calls (elapse q c) = calls c.
Proof.
  intros Harmed Hany.
  destruct (Nat.lt_ge_cases q 300) as [Hq|Hq].
  - unfold armed in Harmed. rewrite (elapse_quiet q c _ _ Harmed) by lia. reflexivity.
  - replace q with (300 + (q - 300))%nat by lia.
    rewrite elapse_add, (armed_elapse_300 c Harmed).
    unfold fire. rewrite Hany.
    rewrite elapse_idle by reflexivity. reflexivity.
Qed.

(** X13. A dashboard whose filter inputs are never touched calls no search:
    the timer armed when the component is mounted fires on empty criteria. *)
Theorem untouched_filters_never_search (t q : nat) :
  calls (elapse q (mounted t)) = [].
Proof. apply (armed_empty_never_calls (mounted t) q); reflexivity. Qed.

(** X14. After the timer has called [searchMachines], the effect is armed
    again: with a search term or a dropdown filter set, and nothing else
    rendering in between, the same search is called again 300ms later. *)
Theorem search_repeats_after_call (c : Component) :
  armed c ->
  truthy (searchTerm c) ||
  existsb truthy
    [SearchFilters.customer (localFilters c); SearchFilters.area (localFilters c);
     SearchFilters.subarea (localFilters c); SearchFilters.status (localFilters c)]
  = true ->
  let sent := criteria (searchTerm c) (localFilters c) in
  armed (elapse 300 c) /\
  calls (elapse 300 c) = calls c ++ [((now c + 300)%nat, sent)] /\
  calls (elapse 600 c) =
    calls c ++ [((now c + 300)%nat, sent); ((now c + 600)%nat, sent)].
Proof.
  intros Harmed Hset sent.
  destruct (anyCriteria_merged _ _ Hset) as [Hany Hany'].
  pose proof (armed_elapse_300 c Harmed) as H300.
  unfold fire in H300. rewrite Hany in H300.
  assert (Harmed' : armed (elapse 300 c)) by (rewrite H300; reflexivity).
  assert (Hcalls : calls (elapse 300 c) = calls c ++ [((now c + 300)%nat, sent)])
    by (rewrite H300; reflexivity).
  assert (Hterm : searchTerm (elapse 300 c) = searchTerm c)
    by (rewrite H300; reflexivity).
  assert (Hlf : localFilters (elapse 300 c) =
                mergeFilters (localFilters c) (criteria (searchTerm c) (localFilters c)))
    by (rewrite H300; reflexivity).
  assert (Hnow : now (elapse 300 c) = (now c + 300)%nat)
    by (rewrite H300; reflexivity).
  clear H300.
  split; [exact Harmed'|]. split; [exact Hcalls|].
  change 600%nat with (300 + 300)%nat. rewrite elapse_add.
  destruct (armed_fires (elapse 300 c) 300 Harmed') as [_ Hfire].
  rewrite Hfire by lia.
  rewrite Hcalls, Hterm, Hlf, Hnow, Hany', criteria_merged.
  rewrite <- app_assoc. cbn [app]. fold sent.
  do 4 f_equal. lia.
Qed.

(** X15. With the search box emptied while [localFilters] still holds the free
    text of the previous search and no other criterion, the timer passes
    its guard and calls [searchMachines] once with every criterion empty:
    the request carries no filter parameter. *)
Theorem emptied_term_searches_without_criteria (c : Component) (v : string) (q : nat) :
  armed c ->
  searchTerm c = "" ->
  localFilters c =
    {| SearchFilters.customer := ""; SearchFilters.area := "";
       SearchFilters.subarea := ""; SearchFilters.machineName := v;
       SearchFilters.status := "" |} ->
  v <> "" ->
  (300 <= q)%nat ->
  calls (elapse q c) = calls c ++ [((now c + 300)%nat, criteria "" emptyFilters)] /\
  searchParams (criteria "" emptyFilters) = [].
Proof.
  intros Harmed Hterm Hlf Hv Hq. split; [|reflexivity].
  assert (Hany : anyCriteria (searchTerm c) (localFilters c) = true).
  { rewrite Hterm, Hlf. unfold anyCriteria. cbn.
    destruct v; [contradiction | reflexivity]. }
  pose proof (armed_elapse_300 c Harmed) as H300.
  unfold fire in H300. rewrite Hany in H300.
  assert (Hsent : criteria (searchTerm c) (localFilters c) = criteria "" emptyFilters)
    by (rewrite Hterm, Hlf; reflexivity).
  assert (Harmed' : armed (elapse 300 c)) by (rewrite H300; reflexivity).
  assert (Hcalls : calls (elapse 300 c) =
                   calls c ++ [((now c + 300)%nat, criteria "" emptyFilters)])
    by (rewrite H300, <- Hsent; reflexivity).
  assert (Hany' : anyCriteria (searchTerm (elapse 300 c)) (localFilters (elapse 300 c))
                  = false).
  { rewrite H300. cbn [searchTerm localFilters rerun_effect set_now].
    rewrite ?Hterm, ?Hlf. reflexivity. }
  clear H300.
  replace q with (300 + (q - 300))%nat by lia.
  rewrite elapse_add, (armed_empty_never_calls _ _ Harmed' Hany'). exact Hcalls.
Qed.

End DebounceFurther.

(** ** [MachineDetailsModal] *)

Section ModalProperties.
Context {Reading TimeSeriesPoint FFTData : Type}.
Variable mock : FFTData.

Abbreviation ModalState := (@MachineDetailsModal.State Reading TimeSeriesPoint FFTData).

(** X16. When the details of a machine cannot be loaded, the modal stops
    loading and keeps the bearings, the readings, the selection and the
    chart data it held before, those of the machine opened previously;
    nothing records the failure and no request is left pending. *)
Theorem loadMachineDetails_failure (machine : Machine) (s : ModalState) (e : Thrown) :
  exists s1 t s2,
    MachineDetailsModal.run (MachineDetailsModal.loadMachineDetails mock (Some machine)) s
      = (s1, [t]) /\
    MachineDetailsModal.loading s1 = true /\
    MachineDetailsModal.settleDetails t (Rejected e) s1 = (s2, []) /\
    MachineDetailsModal.loading s2 = false /\
    MachineDetailsModal.bearings s2 = MachineDetailsModal.bearings s /\
    MachineDetailsModal.latestReadings s2 = MachineDetailsModal.latestReadings s /\
    MachineDetailsModal.selectedBearing s2 = MachineDetailsModal.selectedBearing s /\
    MachineDetailsModal.timeSeriesData s2 = MachineDetailsModal.timeSeriesData s /\
    MachineDetailsModal.fftData s2 = MachineDetailsModal.fftData s.
Proof. do 3 eexists. repeat split; reflexivity. Qed.

(** X17. When the details are loaded, the bearings and the readings are
    replaced and [loading] is false at once. With no bearing, the selection
    and the chart data of before are kept and no series is requested. With
    bearings, the first one is selected and the only pending request is the
    [acceleration] series of that bearing, limited to 100 points: its
    result replaces the series and sets the FFT table, its failure leaves
    both as they were. *)
Theorem loadMachineDetails_success (machine : Machine) (s : ModalState)
    (first : Bearing.t) (others : list Bearing.t) (readings : list Reading)
    (series : list TimeSeriesPoint) (e : Thrown) :
  exists s1 t,
    MachineDetailsModal.run (MachineDetailsModal.loadMachineDetails mock (Some machine)) s
      = (s1, [t]) /\
    (exists s2,
       MachineDetailsModal.settleDetails t (Fulfilled ([], readings)) s1 = (s2, []) /\
       MachineDetailsModal.bearings s2 = [] /\
       MachineDetailsModal.latestReadings s2 = readings /\
       MachineDetailsModal.loading s2 = false /\
       MachineDetailsModal.selectedBearing s2 = MachineDetailsModal.selectedBearing s /\
       MachineDetailsModal.timeSeriesData s2 = MachineDetailsModal.timeSeriesData s /\
       MachineDetailsModal.fftData s2 = MachineDetailsModal.fftData s) /\
    (exists s2 k s3,
       MachineDetailsModal.settleDetails t (Fulfilled (first :: others, readings)) s1
         = (s2, [MachineDetailsModal.AwaitTimeSeries
                   (_id machine) (Bearing._id first) "acceleration" 100 k]) /\
       MachineDetailsModal.bearings s2 = first :: others /\
       MachineDetailsModal.latestReadings s2 = readings /\
       MachineDetailsModal.loading s2 = false /\
       MachineDetailsModal.selectedBearing s2 = Some (Bearing._id first) /\
       MachineDetailsModal.timeSeriesData s2 = MachineDetailsModal.timeSeriesData s /\
       MachineDetailsModal.run (k (Rejected e)) s2 = (s2, []) /\
       MachineDetailsModal.run (k (Fulfilled series)) s2 = (s3, []) /\
       MachineDetailsModal.timeSeriesData s3 = series /\
       MachineDetailsModal.fftData s3 = Some mock /\
       MachineDetailsModal.bearings s3 = first :: others /\
       MachineDetailsModal.selectedBearing s3 = Some (Bearing._id first)).
Proof.
  do 2 eexists. split; [reflexivity|]. split.
  - eexists. repeat split; reflexivity.
  - do 3 eexists. repeat split; reflexivity.
Qed.

End ModalProperties.

(** * Instances of the further properties on the sample data *)

(** A load on the sample snapshot whose four calls are fulfilled. *)
Lemma loadDashboardData_success_witness :
  snd (getAllMachines fulfilledOutcomes) = Fulfilled sampleMachines /\
  let state' :=
    run_task (Promise_all fulfilledOutcomes) (Fulfilled [])
      (loadDashboardData sampleDate) sampleState in
  filteredMachines state' = sampleMachines /\
  searchFilters state' = searchFilters sampleState.
Proof.
  split; [reflexivity|].
  pose proof (loadDashboardData_success sampleState sampleDate fulfilledOutcomes
                (Fulfilled []) sampleMachines sampleKPIs sampleStatusTrends
                sampleHourlyTrends eq_refl eq_refl eq_refl eq_refl) as Hs.
  split; apply Hs.
Defined.

(** A date change on the sample snapshot whose load fails. *)
Lemma setSelectedDate_failure_witness :
  rejectedWith failingOutcomes (ErrorObject "Network Error") /\
  let state' :=
    run_task (Promise_all failingOutcomes) (Fulfilled [])
      (setSelectedDate ((2025, 3, 1) : Date)) sampleState in
  selectedDate state' = ((2025, 3, 1) : Date) /\
  machines state' = machines sampleState.
Proof.
  assert (Hrej : rejectedWith failingOutcomes (ErrorObject "Network Error"))
    by (right; left; reflexivity).
  split; [exact Hrej|].
  pose proof (setSelectedDate_failure sampleState ((2025, 3, 1) : Date) failingOutcomes
                (Fulfilled []) _ Hrej) as Hs.
  split; apply Hs.
Defined.

(** The status criterion [alert], in lower case, on the sample snapshot. *)
Lemma status_criterion_exact_witness :
  PartialFilters.status alertFilter = Some "alert" /\
  clientFilteredMachines sampleState alertFilter = [].
Proof.
  split; [reflexivity|].
  apply (status_criterion_exact sampleState alertFilter "alert");
    [reflexivity | discriminate | intros s; destruct s; discriminate].
Defined.

(** The parameters sent for the free text [pump]. *)
Lemma searchParams_sent_witness :
  constrains (PartialFilters.machineName pumpFilter) "pump" /\
  ("machine_name", "pump") ∈ searchParams pumpFilter.
Proof.
  assert (Hc : constrains (PartialFilters.machineName pumpFilter) "pump")
    by (split; [reflexivity | discriminate]).
  split; [exact Hc|].
  apply (searchParams_sent pumpFilter), Hc.
Defined.

Lemma sampleStatusTrends_dates : NoDup (map dateLabel sampleStatusTrends).
Proof.
  apply NoDup_cons_2; [|apply NoDup_singleton].
  intros Hin. apply list_elem_of_singleton in Hin. discriminate.
Qed.

(** The monthly view of the sample trends. *)
Lemma StatusTrendChart_monthly_witness :
  sampleStatusTrends <> [] /\
  forall ds,
    ds ∈ datasets (StatusTrendChart_chartData sampleStatusTrends ViewMonthly) ->
    data ds = replicate (length sampleStatusTrends) 0.
Proof.
  assert (Hne : sampleStatusTrends <> []) by discriminate.
  split; [exact Hne|].
  apply (StatusTrendChart_monthly sampleStatusTrends Hne).
Defined.

(** The weekly view of the sample trends, whose dates are distinct. *)
Lemma StatusTrendChart_weekly_witness :
  sampleStatusTrends <> [] /\
  NoDup (map dateLabel sampleStatusTrends) /\
  exists sortedTrends,
    sortedTrends ≡ₚ sampleStatusTrends /\
    labels (StatusTrendChart_chartData sampleStatusTrends ViewWeekly) =
      map weekKey sortedTrends.
Proof.
  assert (Hne : sampleStatusTrends <> []) by discriminate.
  split; [exact Hne|]. split; [exact sampleStatusTrends_dates|].
  destruct (StatusTrendChart_weekly sampleStatusTrends Hne)
    as (sortedTrends & Hperm & _ & _ & Hdistinct).
  exists sortedTrends. split; [exact Hperm|].
  apply (Hdistinct sampleStatusTrends_dates).
Defined.

(** The two sample points, received in either order. *)
Lemma HourlyTrendChart_order_independent_witness :
  sampleHourlyTrends ≡ₚ reverse sampleHourlyTrends /\
  HourlyTrendChart_chartData sampleHourlyTrends ViewMachines =
  HourlyTrendChart_chartData (reverse sampleHourlyTrends) ViewMachines.
Proof.
  assert (Hperm : sampleHourlyTrends ≡ₚ reverse sampleHourlyTrends)
    by apply Permutation_swap.
  split; [exact Hperm|].
  apply (HourlyTrendChart_order_independent _ _ ViewMachines Hperm).
  apply NoDup_cons_2; [|apply NoDup_singleton].
  intros Hin. apply list_elem_of_singleton in Hin. discriminate.
Defined.

(** The sample trends with no machine loaded. *)
Lemma CustomerTrendChart_shape_witness :
  sampleStatusTrends <> [] /\
  labels (CustomerTrendChart_chartData sampleStatusTrends []) <> [] /\
  datasets (CustomerTrendChart_chartData sampleStatusTrends []) = [].
Proof.
  assert (Hne : sampleStatusTrends <> []) by discriminate.
  split; [exact Hne|].
  pose proof (CustomerTrendChart_shape sampleStatusTrends [] Hne) as Hs.
  split; [apply Hs | apply Hs; reflexivity].
Defined.

(** The component after the three sample edits. *)
Lemma search_repeats_after_call_witness :
  armed (edits sampleEdits (edit (EditTerm "p") (mounted 0))) /\
  length (calls (elapse 600 (edits sampleEdits (edit (EditTerm "p") (mounted 0)))))
  = 2%nat.
Proof.
  assert (Ha : armed (edits sampleEdits (edit (EditTerm "p") (mounted 0))))
    by (vm_compute; reflexivity).
  split; [exact Ha|].
  assert (Hset :
    truthy (searchTerm (edits sampleEdits (edit (EditTerm "p") (mounted 0)))) ||
    existsb truthy
      [SearchFilters.customer (localFilters (edits sampleEdits (edit (EditTerm "p") (mounted 0))));
       SearchFilters.area (localFilters (edits sampleEdits (edit (EditTerm "p") (mounted 0))));
       SearchFilters.subarea (localFilters (edits sampleEdits (edit (EditTerm "p") (mounted 0))));
       SearchFilters.status (localFilters (edits sampleEdits (edit (EditTerm "p") (mounted 0))))]
    = true) by (vm_compute; reflexivity).
  destruct (search_repeats_after_call _ Ha Hset) as (_ & _ & H600).
  rewrite H600, length_app. vm_compute. reflexivity.
Defined.

(** The search box emptied after a search of [pump]. *)
Lemma emptied_term_searches_without_criteria_witness :
  armed emptiedTerm /\
  searchTerm emptiedTerm = "" /\
  SearchFilters.machineName (localFilters emptiedTerm) = "pump" /\
  calls (elapse 300 emptiedTerm) =
    calls emptiedTerm ++ [((now emptiedTerm + 300)%nat, criteria "" emptyFilters)].
Proof.
  assert (Ha : armed emptiedTerm) by (vm_compute; reflexivity).
  split; [exact Ha|]. split; [vm_compute; reflexivity|].
  split; [vm_compute; reflexivity|].
  apply (emptied_term_searches_without_criteria emptiedTerm "pump" 300 Ha);
    [vm_compute; reflexivity | vm_compute; reflexivity | discriminate | lia].
Defined.
